(** * RuyiSDK VS Code extension: venv detection and the clean command

    A shallow embedding of
    - [src/features/venv/DetectforVenv.ts]  ([detectVenv]), and
    - [src/commands/venv/clean.ts]          (the [ruyi.venv.clean] handler),
    together with the properties of the scanner and of the deletion guard.

    JavaScript strings are sequences of UTF-16 code units; they are modelled
    as [list N].  The file system, the workspace resolver and [path.join] are
    the host of the program: they are the fields of a record [Host], and the
    general theorems are stated for an arbitrary host.  The program itself is
    written in a small state-and-exception monad whose state holds the array
    [foundVenvs] under construction and the trace of observable events
    (file-system calls and console output).

    The file has four parts: the definitions (the program, what its parts
    compute, the vocabulary of the specification, concrete hosts), the lemmas
    about them, the properties of the specification, [C1] to [C10], and
    further properties of the code, [X1] to [X14]. *)

From Stdlib Require Import List String Ascii NArith Bool Arith Lia.
Import ListNotations.

Set Implicit Arguments.

(* ================================================================= *)
(** * Part I: definitions *)

(* ================================================================= *)
(** ** JavaScript strings *)

Module JS.

Definition code_unit := N.

Definition jsstring := list code_unit.

(** The code unit of an ASCII character, and the string of an ASCII
    literal. *)
Definition cu (a : ascii) : code_unit := N_of_ascii a.

Definition js (s : string) : jsstring := map cu (list_ascii_of_string s).

Definition jsstring_eqb (a b : jsstring) : bool :=
  if list_eq_dec N.eq_dec a b then true else false.

(** [s.startsWith(p)] *)
Fixpoint startsWith (s p : jsstring) {struct p} : bool :=
  match p with
  | [] => true
  | x :: p' =>
      match s with
      | [] => false
      | y :: s' => N.eqb y x && startsWith s' p'
      end
  end.

(** [s.includes(sub)] *)
Fixpoint includes (s sub : jsstring) : bool :=
  startsWith s sub ||
  match s with
  | [] => false
  | _ :: s' => includes s' sub
  end.

(** [s.split(sep)] for a separator of one code unit.  The result is never
    empty: the empty string splits into one empty field. *)
Fixpoint split (sep : code_unit) (s : jsstring) : list jsstring :=
  match s with
  | [] => [[]]
  | c :: s' =>
      if N.eqb c sep then [] :: split sep s'
      else match split sep s' with
           | [] => [[c]]
           | field :: fields => (c :: field) :: fields
           end
  end.

(** WhiteSpace and LineTerminator code points of ECMAScript, the ones
    [String.prototype.trim] removes. *)
Definition isWhiteSpace (c : code_unit) : bool :=
  (N.leb 9 c && N.leb c 13) || N.eqb c 32 || N.eqb c 160 || N.eqb c 5760
  || (N.leb 8192 c && N.leb c 8202) || N.eqb c 8232 || N.eqb c 8233
  || N.eqb c 8239 || N.eqb c 8287 || N.eqb c 12288 || N.eqb c 65279.

Fixpoint trimStart (s : jsstring) : jsstring :=
  match s with
  | [] => []
  | c :: s' => if isWhiteSpace c then trimStart s' else s
  end.

Definition trimEnd (s : jsstring) : jsstring := rev (trimStart (rev s)).

(** [s.trim()] *)
Definition trim (s : jsstring) : jsstring := trimEnd (trimStart s).

(** Truthiness of a string: only the empty string is falsy. *)
Definition truthy (s : jsstring) : bool :=
  match s with [] => false | _ :: _ => true end.

(** Thrown values.  [ErrorObject] is an instance of [Error] with its
    [name] and [message]; [Thrown] is any other value, given by the string
    [String(v)] yields. *)
Inductive exn :=
| ErrorObject (name message : jsstring)
| Thrown (shown : jsstring).

(** The string a template literal [`${e}`] puts for [e]
    ([Error.prototype.toString] for error objects). *)
Definition exn_toString (e : exn) : jsstring :=
  match e with
  | ErrorObject name message =>
      match name, message with
      | [], _ => message
      | _, [] => name
      | _, _ => name ++ js ": " ++ message
      end
  | Thrown shown => shown
  end.

(** What a call on [undefined] throws. *)
Definition TypeError (message : string) : exn :=
  ErrorObject (js "TypeError") (js message).

End JS.
Import JS.

(** The line feed, as a string. *)
Definition LF : jsstring := [cu "010"].

(* ================================================================= *)
(** ** Node's [path.join] on POSIX *)

Module PosixPath.

Definition SEP : code_unit := cu "/".

Fixpoint intercalate (l : list jsstring) : jsstring :=
  match l with
  | [] => []
  | [x] => x
  | x :: rest => x ++ SEP :: intercalate rest
  end.

(** [normalizeString], segment by segment; [res] is the stack of the
    segments kept so far, last one first. *)
Fixpoint normalizeSegments (allowAboveRoot : bool)
         (res segs : list jsstring) : list jsstring :=
  match segs with
  | [] => rev res
  | seg :: segs' =>
      if jsstring_eqb seg [] || jsstring_eqb seg (js ".") then
        normalizeSegments allowAboveRoot res segs'
      else if jsstring_eqb seg (js "..") then
        match res with
        | top :: res' =>
            if jsstring_eqb top (js "..") then
              normalizeSegments allowAboveRoot
                (if allowAboveRoot then seg :: res else res) segs'
            else normalizeSegments allowAboveRoot res' segs'
        | [] =>
            normalizeSegments allowAboveRoot
              (if allowAboveRoot then [seg] else []) segs'
        end
      else normalizeSegments allowAboveRoot (seg :: res) segs'
  end.

Definition normalize (p : jsstring) : jsstring :=
  match p with
  | [] => js "."
  | c :: _ =>
      let isAbsolute := N.eqb c SEP in
      let trailingSeparator := N.eqb (last p 0%N) SEP in
      let body :=
        intercalate (normalizeSegments (negb isAbsolute) [] (split SEP p)) in
      match body with
      | [] => if isAbsolute then js "/"
              else if trailingSeparator then js "./" else js "."
      | _ :: _ =>
          let body' := if trailingSeparator then body ++ [SEP] else body in
          if isAbsolute then SEP :: body' else body'
      end
  end.

Definition join (args : list jsstring) : jsstring :=
  match filter truthy args with
  | [] => js "."
  | parts => normalize (intercalate parts)
  end.

End PosixPath.

(* ================================================================= *)
(** ** The host: workspace resolver and file system *)

(** A [fs.Dirent]: the entry's name and whether it is a directory. *)
Record Dirent := { name : jsstring; isDirectory : bool }.

Record Host := {
  (** [getWorkspaceFolderPath()] of [common/helpers] *)
  getWorkspaceFolderPath : exn + jsstring;
  (** [fs.readdirSync(p, { withFileTypes: true })] *)
  fs_readdir : jsstring -> exn + list Dirent;
  (** [fs.existsSync(p)]; it never throws *)
  fs_exists : jsstring -> bool;
  (** [fs.readFileSync(p, 'utf-8')] *)
  fs_readFile : jsstring -> exn + jsstring;
  (** [path.join(...)] *)
  path_join : list jsstring -> jsstring
}.

(* ================================================================= *)
(** ** Events, state and the monad *)

(** The three console messages of [detectVenv]. *)
Inductive message :=
| FailedToRead (subdir : jsstring) (e : exn)
| SkippingUnsafe (dir : jsstring)
| FailedToDetect (e : exn).

(** The text printed for a message. *)
Definition render (m : message) : jsstring :=
  match m with
  | FailedToRead subdir e =>
      js "[Warning] Failed to read " ++ subdir ++ js ": " ++ exn_toString e
  | SkippingUnsafe dir => js "Skipping unsafe path: " ++ dir
  | FailedToDetect e => js "[Error] Failed to detect venvs: " ++ exn_toString e
  end.

Inductive event :=
| Readdir (p : jsstring)
| ExistsSync (p : jsstring)
| ReadFile (p : jsstring)
| ConsoleWarn (m : message)
| ConsoleError (m : message).

(** An element of the result: [[dir, label]]. *)
Definition venv := (jsstring * jsstring)%type.

Record world := { foundVenvs : list venv; trace : list event }.

Inductive completion (A : Type) :=
| Normal (a : A)
| Throw (e : exn).

Arguments Normal {A} a.
Arguments Throw {A} e.

(** Computations over a state [S] that complete normally or throw. *)
Definition Eff (S A : Type) := S -> completion A * S.

(** The computations of [detectVenv]. *)
Definition M (A : Type) := Eff world A.

Definition ret {S A} (a : A) : Eff S A := fun w => (Normal a, w).

Definition bind {S A B} (m : Eff S A) (k : A -> Eff S B) : Eff S B :=
  fun w => match m w with
           | (Normal a, w') => k a w'
           | (Throw e, w') => (Throw e, w')
           end.

Definition throw {S A} (e : exn) : Eff S A := fun w => (Throw e, w).

(** [try { body } catch (e) { handler }] *)
Definition try_catch {S A} (body : Eff S A) (handler : exn -> Eff S A) : Eff S A :=
  fun w => match body w with
           | (Normal a, w') => (Normal a, w')
           | (Throw e, w') => handler e w'
           end.

Definition emit (ev : event) : M unit :=
  fun w => (Normal tt, {| foundVenvs := foundVenvs w; trace := trace w ++ [ev] |}).

(** [foundVenvs.push(v)] *)
Definition push (v : venv) : M unit :=
  fun w => (Normal tt, {| foundVenvs := foundVenvs w ++ [v]; trace := trace w |}).

Definition of_result {S A} (r : exn + A) : Eff S A :=
  match r with
  | inl e => throw e
  | inr a => ret a
  end.

Declare Scope js_scope.
Delimit Scope js_scope with js.
Notation "x <- m ;; k" := (bind m (fun x => k))
  (at level 61, m at next level, right associativity) : js_scope.
Notation "m ;; k" := (bind m (fun _ => k))
  (at level 61, right associativity) : js_scope.
Open Scope js_scope.

(** [xs.flatMap(f)] for a callback with effects. *)
Fixpoint flatMap {A B} (f : A -> M (list B)) (xs : list A) : M (list B) :=
  match xs with
  | [] => ret []
  | x :: xs' => ys <- f x ;; zs <- flatMap f xs' ;; ret (ys ++ zs)
  end.

(** [for (const x of xs) { body }] *)
Fixpoint forOf {A} (xs : list A) (body : A -> M unit) : M unit :=
  match xs with
  | [] => ret tt
  | x :: xs' => body x ;; forOf xs' body
  end.

Definition empty_world : world := {| foundVenvs := []; trace := [] |}.

(* ================================================================= *)
(** ** [detectVenv] *)

(** The closure [isPathSafe] of [detectVenv]. *)
Definition isPathSafe (pathSegment : jsstring) : bool :=
  if negb (truthy pathSegment) || Nat.eqb (List.length pathSegment) 0 then false
  else if includes pathSegment (js "..") || includes pathSegment [0%N] then false
  else if jsstring_eqb pathSegment (js ".") || startsWith pathSegment (js "/") then false
  else true.

Section Scanner.

Variable host : Host.

Definition readdirSync (p : jsstring) : M (list Dirent) :=
  emit (Readdir p) ;; of_result (fs_readdir host p).

Definition existsSync (p : jsstring) : M bool :=
  emit (ExistsSync p) ;; ret (fs_exists host p).

Definition readFileSync (p : jsstring) : M jsstring :=
  emit (ReadFile p) ;; of_result (fs_readFile host p).

Definition console_warn (m : message) : M unit := emit (ConsoleWarn m).

Definition console_error (m : message) : M unit := emit (ConsoleError m).

(** [.filter(dirent => dirent.isDirectory()).map(dirent => dirent.name)] *)
Definition directoryNames (entries : list Dirent) : list jsstring :=
  map name (filter isDirectory entries).

(** The callback given to [subdirectories.flatMap]. *)
Definition listSubdir (workspacePath subdir : jsstring) : M (list jsstring) :=
  try_catch
    (let subdirPath := path_join host [workspacePath; subdir] in
     entries <- readdirSync subdirPath ;;
     ret (map (fun n => subdir ++ js "/" ++ n) (directoryNames entries)))
    (fun e => console_warn (FailedToRead subdir e) ;; ret []).

(** The body of the loop over [allDirsToCheck]. *)
Definition checkDir (workspacePath dir : jsstring) : M unit :=
  let segments := split (cu "/") dir in
  if negb (forallb isPathSafe segments) then
    console_warn (SkippingUnsafe dir)
  else
    let binPath := path_join host [workspacePath; dir; js "bin"] in
    let activatePath := path_join host [binPath; js "ruyi-activate"] in
    present <- existsSync activatePath ;;
    if present then
      activateContent <- readFileSync activatePath ;;
      let promptLine :=
        find (fun line => includes line (js "RUYI_VENV_PROMPT="))
             (split (cu "010") activateContent) in
      match promptLine with
      | Some line =>
          if truthy line then
            match nth_error (split (cu "=") line) 1 with
            | Some value => push (dir, trim value)
            | None => throw (TypeError "Cannot read properties of undefined (reading 'trim')")
            end
          else ret tt
      | None => ret tt
      end
    else ret tt.

Definition detectVenv : M (list venv) :=
  try_catch
    (workspacePath <- of_result (getWorkspaceFolderPath host) ;;
     entries <- readdirSync workspacePath ;;
     let subdirectories := directoryNames entries in
     subSubdirectories <- flatMap (listSubdir workspacePath) subdirectories ;;
     let allDirsToCheck := subdirectories ++ subSubdirectories in
     forOf allDirsToCheck (checkDir workspacePath))
    (fun e => console_error (FailedToDetect e)) ;;
  fun w => (Normal (foundVenvs w), w).

End Scanner.

(** A call of [detectVenv]: it starts with an empty [foundVenvs]. *)
Definition run_detectVenv (host : Host) : completion (list venv) * list event :=
  let (c, w) := detectVenv host empty_world in (c, trace w).

(* ================================================================= *)
(** ** The command [ruyi.venv.clean] *)

Module Clean.

(** The item the user picked in [ruyi.venv.detect]. *)
Record PickedVenv := {
  label : jsstring;
  description : jsstring;
  rawPath : jsstring
}.

(** What the handler does to the outside, in order. *)
Inductive ui_event :=
| ExecuteCommand (command arg : jsstring)
| ShowErrorMessage (text : jsstring)
| ShowWarningMessage (text : jsstring) (modal : bool) (item : jsstring)
| ShowInformationMessage (text : jsstring)
| FsStat (path : jsstring)
| FsDelete (path : jsstring) (recursive useTrash : bool).

(** The editor and the session around the handler. *)
Record Workbench := {
  (** what [executeCommand('ruyi.venv.detect', 'clean')] resolves to *)
  detect_pick : exn + option PickedVenv;
  (** the variable [currentVenv] of [manageTerminal]; [None] is [undefined] *)
  currentVenv : option jsstring;
  (** the item [showWarningMessage] resolves to, for a given text *)
  warning_choice : jsstring -> option jsstring;
  workspaceFolderPath : exn + jsstring;
  (** [vscode.workspace.fs.stat] and [.delete] *)
  workspace_stat : jsstring -> exn + unit;
  workspace_delete : jsstring -> exn + unit;
  join : list jsstring -> jsstring
}.

Definition UI (A : Type) := Eff (list ui_event) A.

Definition tell (ev : ui_event) : UI unit := fun tr => (Normal tt, tr ++ [ev]).

(** [a === b] for a string [a] and a value [b] that is a string or
    [undefined]. *)
Definition strict_eq (a : jsstring) (b : option jsstring) : bool :=
  match b with
  | Some s => jsstring_eqb a s
  | None => false
  end.

Section Handler.

Variable wb : Workbench.

Definition executeCommand (command arg : jsstring) : UI (option PickedVenv) :=
  tell (ExecuteCommand command arg) ;; of_result (detect_pick wb).

Definition showErrorMessage (text : jsstring) : UI unit :=
  tell (ShowErrorMessage text).

Definition showInformationMessage (text : jsstring) : UI unit :=
  tell (ShowInformationMessage text).

Definition showWarningMessage (text : jsstring) (modal : bool) (item : jsstring)
  : UI (option jsstring) :=
  tell (ShowWarningMessage text modal item) ;; ret (warning_choice wb text).

Definition stat (path : jsstring) : UI unit :=
  tell (FsStat path) ;; of_result (workspace_stat wb path).

Definition delete (path : jsstring) (recursive useTrash : bool) : UI unit :=
  tell (FsDelete path recursive useTrash) ;; of_result (workspace_delete wb path).

(** The callback registered for [ruyi.venv.clean]. *)
Definition cleanCommand : UI unit :=
  pickedVenv <- executeCommand (js "ruyi.venv.detect") (js "clean") ;;
  match pickedVenv with
  | None => ret tt
  | Some picked =>
      let venvPath := js "./" ++ rawPath picked in
      if strict_eq venvPath (currentVenv wb) then
        showErrorMessage
          (js "Cannot delete the currently active Ruyi venv. Please deactivate it first.")
      else
        confirm <- showWarningMessage
                     (js "Are you sure you want to delete the Ruyi venv at " ++ venvPath
                      ++ js "? This action cannot be undone.")
                     true (js "Delete") ;;
        if strict_eq (js "Delete") confirm then
          try_catch
            (workspacePath <- of_result (workspaceFolderPath wb) ;;
             let cleanPath :=
               if startsWith venvPath (js "./") then skipn 2 venvPath else venvPath in
             let absolutePath := join wb [workspacePath; cleanPath] in
             stat absolutePath ;;
             delete absolutePath true false ;;
             showInformationMessage
               (js "Ruyi venv at " ++ absolutePath ++ js " has been deleted."))
            (fun error =>
               match error with
               | ErrorObject _ message =>
                   showErrorMessage (js "Failed to delete venv: " ++ message)
               | Thrown shown =>
                   showErrorMessage (js "Failed to delete venv: " ++ shown)
               end)
        else ret tt
  end.

End Handler.

(** One invocation of the command. *)
Definition run_cleanCommand (wb : Workbench) : completion unit * list ui_event :=
  cleanCommand wb [].

Definition isDelete (ev : ui_event) : bool :=
  match ev with
  | FsDelete _ _ _ => true
  | _ => false
  end.

End Clean.

(* ================================================================= *)
(** ** What the parts of [detectVenv] compute *)

(** The state after [venvs] were pushed and [evs] happened. *)
Definition extend (w : world) (venvs : list venv) (evs : list event) : world :=
  {| foundVenvs := foundVenvs w ++ venvs; trace := trace w ++ evs |}.

Section Outcomes.

Variable host : Host.

(** The path of the marker file of a candidate. *)
Definition activatePathOf (workspacePath dir : jsstring) : jsstring :=
  path_join host [path_join host [workspacePath; dir; js "bin"]; js "ruyi-activate"].

(** The first line of the marker file that has [RUYI_VENV_PROMPT=]. *)
Definition promptLineOf (activateContent : jsstring) : option jsstring :=
  find (fun line => includes line (js "RUYI_VENV_PROMPT="))
       (split (cu "010") activateContent).

(** The label computed from the prompt line. *)
Definition labelOf (promptLine : jsstring) : jsstring :=
  trim (nth 1 (split (cu "=") promptLine) []).

(** The depth-2 candidates under one depth-1 directory, and the events of
    listing it. *)
Definition subdirCandidates (workspacePath subdir : jsstring) : list jsstring :=
  match fs_readdir host (path_join host [workspacePath; subdir]) with
  | inr entries => map (fun n => subdir ++ js "/" ++ n) (directoryNames entries)
  | inl _ => []
  end.

Definition subdirEvents (workspacePath subdir : jsstring) : list event :=
  Readdir (path_join host [workspacePath; subdir]) ::
  match fs_readdir host (path_join host [workspacePath; subdir]) with
  | inr _ => []
  | inl e => [ConsoleWarn (FailedToRead subdir e)]
  end.

(** How the evaluation of one candidate completes, what it pushes and the
    events it causes. *)
Definition dirOutcome (workspacePath dir : jsstring)
  : completion unit * list venv * list event :=
  if forallb isPathSafe (split (cu "/") dir) then
    let activatePath := activatePathOf workspacePath dir in
    if fs_exists host activatePath then
      match fs_readFile host activatePath with
      | inl e => (Throw e, [], [ExistsSync activatePath; ReadFile activatePath])
      | inr activateContent =>
          (Normal tt,
           match promptLineOf activateContent with
           | Some line => [(dir, labelOf line)]
           | None => []
           end,
           [ExistsSync activatePath; ReadFile activatePath])
      end
    else (Normal tt, [], [ExistsSync activatePath])
  else (Normal tt, [], [ConsoleWarn (SkippingUnsafe dir)]).

(** The loop over the candidates: it stops at the first candidate whose
    evaluation throws. *)
Fixpoint loopOutcome (workspacePath : jsstring) (dirs : list jsstring)
  : completion unit * list venv * list event :=
  match dirs with
  | [] => (Normal tt, [], [])
  | dir :: dirs' =>
      match dirOutcome workspacePath dir with
      | (Normal _, venvs, evs) =>
          let '(c, venvs', evs') := loopOutcome workspacePath dirs' in
          (c, venvs ++ venvs', evs ++ evs')
      | (Throw e, venvs, evs) => (Throw e, venvs, evs)
      end
  end.

(** The candidates, in the order of the loop. *)
Definition candidates (workspacePath : jsstring) (entries : list Dirent)
  : list jsstring :=
  directoryNames entries ++
  flat_map (subdirCandidates workspacePath) (directoryNames entries).

(** What the handler at the end of [detectVenv] logs. *)
Definition handlerEvents (c : completion unit) : list event :=
  match c with
  | Normal _ => []
  | Throw e => [ConsoleError (FailedToDetect e)]
  end.

End Outcomes.

Section Records.

Variable host : Host.

(** The records and the events of evaluating one candidate. *)
Definition venvsOf (workspacePath dir : jsstring) : list venv :=
  snd (fst (dirOutcome host workspacePath dir)).

Definition eventsOf (workspacePath dir : jsstring) : list event :=
  snd (dirOutcome host workspacePath dir).

(** The candidate has no marker file that exists and cannot be read. *)
Definition markerReadable (workspacePath dir : jsstring) : bool :=
  negb (forallb isPathSafe (split (cu "/") dir))
  || negb (fs_exists host (activatePathOf host workspacePath dir))
  || match fs_readFile host (activatePathOf host workspacePath dir) with
     | inr _ => true
     | inl _ => false
     end.

Definition markersReadable (workspacePath : jsstring) (dirs : list jsstring) : bool :=
  forallb (markerReadable workspacePath) dirs.

End Records.

(* ================================================================= *)
(** ** The vocabulary of the specification *)

(** An unsafe segment, in the words of the specification: it is empty,
    contains the sequence [..], contains a null code unit, is exactly [.],
    or begins with [/]. *)
Definition unsafe_segment (seg : jsstring) : Prop :=
  seg = []
  \/ (exists before after, seg = before ++ js ".." ++ after)
  \/ In 0%N seg
  \/ seg = js "."
  \/ (exists rest, seg = js "/" ++ rest).

(** In a directory tree no entry name contains the path separator. *)
Definition names_without_separator (host : Host) : Prop :=
  forall p entries entry,
    fs_readdir host p = inr entries -> In entry entries ->
    ~ In (cu "/") (name entry).

(** [n] is the name of an entry of the listing that is a directory for
    [Dirent.isDirectory()]. *)
Definition directory_entry (entries : list Dirent) (n : jsstring) : Prop :=
  exists entry, In entry entries /\ isDirectory entry = true /\ name entry = n.

(** [dir] is at depth 1 or 2 under the root: the name of a directory entry
    of the root, or [<depth1>/<depth2>] for a directory entry [depth1] of the
    root and a directory entry [depth2] of the listing of [depth1]. *)
Definition within_depth_two (host : Host) (workspacePath : jsstring)
           (entries : list Dirent) (dir : jsstring) : Prop :=
  directory_entry entries dir \/
  exists depth1 entries1 depth2,
    directory_entry entries depth1 /\
    fs_readdir host (path_join host [workspacePath; depth1]) = inr entries1 /\
    directory_entry entries1 depth2 /\
    dir = depth1 ++ js "/" ++ depth2.

(** [line] is the first line of [content] that has [RUYI_VENV_PROMPT=]. *)
Definition first_prompt_line (content line : jsstring) : Prop :=
  exists earlier later,
    split (cu "010") content = earlier ++ line :: later /\
    (forall l, In l earlier -> includes l (js "RUYI_VENV_PROMPT=") = false) /\
    includes line (js "RUYI_VENV_PROMPT=") = true.

(** What follows the first [sep] of [s]; nothing when [s] has no [sep]. *)
Fixpoint afterFirst (sep : code_unit) (s : jsstring) : jsstring :=
  match s with
  | [] => []
  | c :: s' => if N.eqb c sep then s' else afterFirst sep s'
  end.

(** The label in the words of the specification: the portion of the line
    after its first [=], with surrounding whitespace trimmed. *)
Definition label_after_first_eq (line : jsstring) : jsstring :=
  trim (afterFirst (cu "=") line).

(** The event is the warning of a failed listing of [subdir]. *)
Definition isFailedToRead (subdir : jsstring) (ev : event) : bool :=
  match ev with
  | ConsoleWarn (FailedToRead d _) => jsstring_eqb d subdir
  | _ => false
  end.

(** The event is a warning that names [dir], of either kind. *)
Definition isWarningAbout (dir : jsstring) (ev : event) : bool :=
  match ev with
  | ConsoleWarn (FailedToRead d _) => jsstring_eqb d dir
  | ConsoleWarn (SkippingUnsafe d) => jsstring_eqb d dir
  | _ => false
  end.

(* ================================================================= *)
(** ** Concrete hosts *)

(** A POSIX host described by two tables: what listing each directory path
    gives, and what reading each file path gives.  A path absent from both
    tables does not exist; reading a directory fails with [EISDIR]. *)
Module Mock.

Definition ENOENT : exn :=
  ErrorObject (js "Error") (js "ENOENT: no such file or directory").

Definition EISDIR : exn :=
  ErrorObject (js "Error") (js "EISDIR: illegal operation on a directory, read").

Definition EACCES : exn :=
  ErrorObject (js "Error") (js "EACCES: permission denied").

Fixpoint assoc {A} (p : jsstring) (table : list (jsstring * A)) : option A :=
  match table with
  | [] => None
  | (q, a) :: table' => if jsstring_eqb p q then Some a else assoc p table'
  end.

Definition host_of (workspace : exn + jsstring)
           (dirs : list (jsstring * (exn + list Dirent)))
           (files : list (jsstring * (exn + jsstring))) : Host :=
  {| getWorkspaceFolderPath := workspace;
     fs_readdir := fun p =>
       match assoc p dirs with
       | Some r => r
       | None => inl ENOENT
       end;
     fs_exists := fun p =>
       match assoc p files, assoc p dirs with
       | None, None => false
       | _, _ => true
       end;
     fs_readFile := fun p =>
       match assoc p files, assoc p dirs with
       | Some r, _ => r
       | None, Some _ => inl EISDIR
       | None, None => inl ENOENT
       end;
     path_join := PosixPath.join |}.

Definition dir (n : string) : Dirent := {| name := js n; isDirectory := true |}.

Definition file (n : string) : Dirent := {| name := js n; isDirectory := false |}.

(** No entry name of the table of directories has a separator in it. *)
Definition table_names_ok (dirs : list (jsstring * (exn + list Dirent))) : bool :=
  forallb (fun row =>
             match snd row with
             | inr entries =>
                 forallb (fun entry => negb (existsb (N.eqb (cu "/")) (name entry)))
                         entries
             | inl _ => true
             end)
          dirs.

End Mock.

(** The hosts the properties are evaluated on. *)
Module Inputs.
Import Mock.

Definition WS : jsstring := js "/ws".

(** No workspace is open: the resolver throws. *)
Definition no_workspace : Host :=
  host_of (inl (ErrorObject (js "Error") (js "No workspace folder is open"))) [] [].

(** The root directory cannot be listed. *)
Definition unreadable_root : Host :=
  host_of (inr WS) [(WS, inl EACCES)] [].

(** Two directories with a valid marker file each; the name of the first
    one has the sequence [..] in it. *)
Definition unsafe_name : Host :=
  host_of (inr (js "/ws"))
    [ (js "/ws", inr [dir "a..b"; dir "ok"]);
      (js "/ws/a..b", inr [dir "bin"]);
      (js "/ws/a..b/bin", inr [file "ruyi-activate"]);
      (js "/ws/ok", inr [dir "bin"]);
      (js "/ws/ok/bin", inr [file "ruyi-activate"]) ]
    [ (js "/ws/a..b/bin/ruyi-activate", inr (js "RUYI_VENV_PROMPT=evil" ++ LF));
      (js "/ws/ok/bin/ruyi-activate", inr (js "RUYI_VENV_PROMPT=fine" ++ LF)) ].

(** A tree with marker files at depth 1, 2 and 3. *)
Definition deep_dirs : list (jsstring * (exn + list Dirent)) :=
  [ (js "/ws", inr [dir "proj"; file "README.md"; dir "top"]);
    (js "/ws/proj", inr [dir "venvA"; dir "venvB"]);
    (js "/ws/top", inr [dir "bin"]);
    (js "/ws/top/bin", inr [file "ruyi-activate"]);
    (js "/ws/proj/venvA", inr [dir "bin"; dir "nested"]);
    (js "/ws/proj/venvA/bin", inr [file "ruyi-activate"]);
    (js "/ws/proj/venvA/nested", inr [dir "bin"]);
    (js "/ws/proj/venvA/nested/bin", inr [file "ruyi-activate"]);
    (js "/ws/proj/venvB", inr []) ].

Definition deep_tree : Host :=
  host_of (inr (js "/ws")) deep_dirs
    [ (js "/ws/top/bin/ruyi-activate", inr (js "RUYI_VENV_PROMPT=top" ++ LF));
      (js "/ws/proj/venvA/bin/ruyi-activate", inr (js "RUYI_VENV_PROMPT=A" ++ LF));
      (js "/ws/proj/venvA/nested/bin/ruyi-activate",
       inr (js "RUYI_VENV_PROMPT=nested" ++ LF)) ].

(** [locked] cannot be listed and its marker file exists but cannot be
    read; its sibling [valid] is an environment. *)
Definition locked_dirs : list (jsstring * (exn + list Dirent)) :=
  [ (js "/ws", inr [dir "locked"; dir "valid"]);
    (js "/ws/locked", inl EACCES);
    (js "/ws/valid", inr [dir "bin"]);
    (js "/ws/valid/bin", inr [file "ruyi-activate"]) ].

Definition locked_with_unreadable_marker : Host :=
  host_of (inr (js "/ws")) locked_dirs
    [ (js "/ws/locked/bin/ruyi-activate", inl EACCES);
      (js "/ws/valid/bin/ruyi-activate", inr (js "RUYI_VENV_PROMPT=ok" ++ LF)) ].

(** The same tree when [locked] has no marker file. *)
Definition locked_without_marker : Host :=
  host_of (inr (js "/ws")) locked_dirs
    [ (js "/ws/valid/bin/ruyi-activate", inr (js "RUYI_VENV_PROMPT=ok" ++ LF)) ].

(** [real] is an environment; [link] is a symbolic link to an environment:
    it can be listed and has a marker file under it, and is not a directory
    for [Dirent.isDirectory()]. *)
Definition symlinked_env : Host :=
  host_of (inr (js "/ws"))
    [ (js "/ws", inr [file "link"; file "notes.txt"; dir "real"]);
      (js "/ws/link", inr [dir "bin"]);
      (js "/ws/link/bin", inr [file "ruyi-activate"]);
      (js "/ws/real", inr [dir "bin"]);
      (js "/ws/real/bin", inr [file "ruyi-activate"]) ]
    [ (js "/ws/link/bin/ruyi-activate", inr (js "RUYI_VENV_PROMPT=linked" ++ LF));
      (js "/ws/real/bin/ruyi-activate", inr (js "RUYI_VENV_PROMPT=real" ++ LF)) ].

(** [env] has a marker file with a prompt line, [plain] has a marker file
    without one, and [other] has no marker file. *)
Definition three_dirs : Host :=
  host_of (inr (js "/ws"))
    [ (js "/ws", inr [dir "env"; dir "plain"; dir "other"]);
      (js "/ws/env", inr [dir "bin"; file "README"]);
      (js "/ws/env/bin", inr [file "ruyi-activate"]);
      (js "/ws/plain", inr [dir "bin"]);
      (js "/ws/plain/bin", inr [file "ruyi-activate"]);
      (js "/ws/other", inr []) ]
    [ (js "/ws/env/bin/ruyi-activate", inr (js "RUYI_VENV_PROMPT=myenv" ++ LF));
      (js "/ws/plain/bin/ruyi-activate", inr (js "# nothing here" ++ LF)) ].

(** The marker file of [env] has an empty value. *)
Definition empty_value : Host :=
  host_of (inr (js "/ws"))
    [ (js "/ws", inr [dir "env"]);
      (js "/ws/env", inr [dir "bin"]);
      (js "/ws/env/bin", inr [file "ruyi-activate"]) ]
    [ (js "/ws/env/bin/ruyi-activate", inr (js "RUYI_VENV_PROMPT=")) ].

(** [locked] cannot be listed; its sibling [good] is an environment, and
    so is [good/inner]. *)
Definition one_locked : Host :=
  host_of (inr (js "/ws"))
    [ (js "/ws", inr [dir "locked"; dir "good"]);
      (js "/ws/locked", inl EACCES);
      (js "/ws/good", inr [dir "bin"; dir "inner"]);
      (js "/ws/good/bin", inr [file "ruyi-activate"]);
      (js "/ws/good/inner", inr [dir "bin"]);
      (js "/ws/good/inner/bin", inr [file "ruyi-activate"]) ]
    [ (js "/ws/good/bin/ruyi-activate", inr (js "RUYI_VENV_PROMPT=ok" ++ LF));
      (js "/ws/good/inner/bin/ruyi-activate", inr (js "RUYI_VENV_PROMPT=in" ++ LF)) ].

(** One directory [env], whose marker file has the given content. *)
Definition with_content (content : jsstring) : Host :=
  host_of (inr (js "/ws"))
    [ (js "/ws", inr [dir "env"]);
      (js "/ws/env", inr [dir "bin"]);
      (js "/ws/env/bin", inr [file "ruyi-activate"]) ]
    [ (js "/ws/env/bin/ruyi-activate", inr content) ].

(** The value of the prompt has an [=] in it. *)
Definition value_with_eq : Host := with_content (js "RUYI_VENV_PROMPT=a=b" ++ LF).

(** The value of the prompt has spaces around it. *)
Definition spaced : Host := with_content (js "RUYI_VENV_PROMPT=  spaced  " ++ LF).

(** The events of a scan of [with_content]. *)
Definition scan_events : list event :=
  [ Readdir (js "/ws"); Readdir (js "/ws/env");
    ExistsSync (js "/ws/env/bin/ruyi-activate");
    ReadFile (js "/ws/env/bin/ruyi-activate");
    ExistsSync (js "/ws/env/bin/bin/ruyi-activate") ].

Definition b_marker : list (jsstring * (exn + jsstring)) :=
  [ (js "/ws/b/bin/ruyi-activate", inr (js "RUYI_VENV_PROMPT=good" ++ LF)) ].

(** [b] is an environment; [a/bin/ruyi-activate] is a directory. *)
Definition marker_is_directory : Host :=
  host_of (inr (js "/ws"))
    [ (js "/ws", inr [dir "a"; dir "b"]);
      (js "/ws/a", inr [dir "bin"]);
      (js "/ws/a/bin", inr [dir "ruyi-activate"]);
      (js "/ws/a/bin/ruyi-activate", inr []);
      (js "/ws/b", inr [dir "bin"]);
      (js "/ws/b/bin", inr [file "ruyi-activate"]) ]
    b_marker.

(** The same tree without [a/bin]. *)
Definition marker_absent : Host :=
  host_of (inr (js "/ws"))
    [ (js "/ws", inr [dir "a"; dir "b"]);
      (js "/ws/a", inr []);
      (js "/ws/b", inr [dir "bin"]);
      (js "/ws/b/bin", inr [file "ruyi-activate"]) ]
    b_marker.

End Inputs.

(** The workbenches the deletion guard is evaluated on. *)
Module CleanInputs.
Import Clean.

Definition picked_env : PickedVenv :=
  {| label := js "myenv"; description := js "./proj/venvA"; rawPath := js "proj/venvA" |}.

(** The user picks [proj/venvA], which is the active environment, and
    would confirm the deletion. *)
Definition active_picked : Workbench :=
  {| detect_pick := inr (Some picked_env);
     currentVenv := Some (js "./proj/venvA");
     warning_choice := fun _ => Some (js "Delete");
     workspaceFolderPath := inr (js "/ws");
     workspace_stat := fun _ => inr tt;
     workspace_delete := fun _ => inr tt;
     join := PosixPath.join |}.

(** The same pick when no environment is active. *)
Definition inactive_picked : Workbench :=
  {| detect_pick := inr (Some picked_env);
     currentVenv := None;
     warning_choice := fun _ => Some (js "Delete");
     workspaceFolderPath := inr (js "/ws");
     workspace_stat := fun _ => inr tt;
     workspace_delete := fun _ => inr tt;
     join := PosixPath.join |}.

(** The user confirms the deletion of an inactive environment, and the
    delete is refused. *)
Definition delete_denied : Workbench :=
  {| detect_pick := inr (Some picked_env);
     currentVenv := None;
     warning_choice := fun _ => Some (js "Delete");
     workspaceFolderPath := inr (js "/ws");
     workspace_stat := fun _ => inr tt;
     workspace_delete := fun _ => inl Mock.EACCES;
     join := PosixPath.join |}.

End CleanInputs.

(* ================================================================= *)
(** ** Vocabulary for the further properties *)

(** Kinds of events, and how many events of a kind a trace has. *)
Definition isReaddir (ev : event) : bool :=
  match ev with Readdir _ => true | _ => false end.

Definition isExistsSync (ev : event) : bool :=
  match ev with ExistsSync _ => true | _ => false end.

Definition isReadFile (ev : event) : bool :=
  match ev with ReadFile _ => true | _ => false end.

Definition isConsoleError (ev : event) : bool :=
  match ev with ConsoleError _ => true | _ => false end.

Definition count (kind : event -> bool) (tr : list event) : nat :=
  List.length (filter kind tr).

(** The candidate passes the safety check and its marker file exists, but
    reading it throws [e]. *)
Definition markerUnreadable (host : Host) (workspacePath dir : jsstring) (e : exn)
  : Prop :=
  forallb isPathSafe (split (cu "/") dir) = true /\
  fs_exists host (activatePathOf host workspacePath dir) = true /\
  fs_readFile host (activatePathOf host workspacePath dir) = inl e.

(** No listing has two entries of the same name. *)
Definition listings_without_duplicates (host : Host) : Prop :=
  forall p entries, fs_readdir host p = inr entries -> NoDup (map name entries).

(** The strings of a list are pairwise different. *)
Fixpoint distinct (l : list jsstring) : bool :=
  match l with
  | [] => true
  | x :: rest => negb (existsb (jsstring_eqb x) rest) && distinct rest
  end.

(** No listing of the table of a concrete host has two entries of the same
    name. *)
Definition table_names_distinct (dirs : list (jsstring * (exn + list Dirent))) : bool :=
  forallb (fun row =>
             match snd row with
             | inr entries => distinct (map name entries)
             | inl _ => true
             end)
          dirs.

(* ================================================================= *)
(** ** What the clean command does, case by case *)

Module CleanOutcome.
Import Clean.

(** The text of the confirmation dialog. *)
Definition confirmText (picked : PickedVenv) : jsstring :=
  js "Are you sure you want to delete the Ruyi venv at " ++ (js "./" ++ rawPath picked)
  ++ js "? This action cannot be undone.".

(** The text shown for a failure caught by the handler. *)
Definition failureText (error : exn) : jsstring :=
  js "Failed to delete venv: " ++
  match error with
  | ErrorObject _ message => message
  | Thrown shown => shown
  end.

Definition successText (absolutePath : jsstring) : jsstring :=
  js "Ruyi venv at " ++ absolutePath ++ js " has been deleted.".

(** How one invocation completes and what it does, by the answers of the
    workbench. *)
Definition cleanOutcome (wb : Workbench) : completion unit * list ui_event :=
  let call := ExecuteCommand (js "ruyi.venv.detect") (js "clean") in
  match detect_pick wb with
  | inl e => (Throw e, [call])
  | inr None => (Normal tt, [call])
  | inr (Some picked) =>
      if strict_eq (js "./" ++ rawPath picked) (currentVenv wb) then
        (Normal tt,
         [call;
          ShowErrorMessage
            (js "Cannot delete the currently active Ruyi venv. Please deactivate it first.")])
      else
        let ask := ShowWarningMessage (confirmText picked) true (js "Delete") in
        if strict_eq (js "Delete") (warning_choice wb (confirmText picked)) then
          match workspaceFolderPath wb with
          | inl e => (Normal tt, [call; ask; ShowErrorMessage (failureText e)])
          | inr workspacePath =>
              let absolutePath := join wb [workspacePath; rawPath picked] in
              match workspace_stat wb absolutePath with
              | inl e =>
                  (Normal tt,
                   [call; ask; FsStat absolutePath; ShowErrorMessage (failureText e)])
              | inr _ =>
                  match workspace_delete wb absolutePath with
                  | inl e =>
                      (Normal tt,
                       [call; ask; FsStat absolutePath;
                        FsDelete absolutePath true false;
                        ShowErrorMessage (failureText e)])
                  | inr _ =>
                      (Normal tt,
                       [call; ask; FsStat absolutePath;
                        FsDelete absolutePath true false;
                        ShowInformationMessage (successText absolutePath)])
                  end
              end
          end
        else (Normal tt, [call; ask])
  end.

Definition isStat (ev : ui_event) : bool :=
  match ev with FsStat _ => true | _ => false end.

(** The event is a message shown in a notification (not the dialog). *)
Definition isNotification (ev : ui_event) : bool :=
  match ev with
  | ShowErrorMessage _ | ShowInformationMessage _ => true
  | _ => false
  end.

End CleanOutcome.

(* ================================================================= *)
(** ** The directory a POSIX join resolves into *)

(** What [path.join(workspacePath, ...)] begins with on POSIX, whatever
    plain relative path follows: the normalized workspace path and a
    separator (nothing when the workspace path normalizes to nothing). *)
Definition root_prefix (workspacePath : jsstring) : jsstring :=
  match workspacePath with
  | [] => []
  | c :: _ =>
      (if N.eqb c PosixPath.SEP then [PosixPath.SEP] else []) ++
      match PosixPath.normalizeSegments (negb (N.eqb c PosixPath.SEP)) []
              (split PosixPath.SEP workspacePath) with
      | [] => []
      | segments => PosixPath.intercalate segments ++ [PosixPath.SEP]
      end
  end.

(* ================================================================= *)
(** * Part II: lemmas *)

(* ================================================================= *)
(** ** The string operations *)

Module JSFacts.

Lemma jsstring_eqb_eq (a b : jsstring) : jsstring_eqb a b = true <-> a = b.
Proof.
  unfold jsstring_eqb. destruct (list_eq_dec N.eq_dec a b); split; congruence.
Qed.

Lemma jsstring_eqb_refl (a : jsstring) : jsstring_eqb a a = true.
Proof. now apply jsstring_eqb_eq. Qed.

Lemma jsstring_eqb_neq (a b : jsstring) : jsstring_eqb a b = false <-> a <> b.
Proof.
  unfold jsstring_eqb. destruct (list_eq_dec N.eq_dec a b); split; congruence.
Qed.

(** [startsWith] is "has this prefix". *)
Lemma startsWith_prefix (s p : jsstring) :
  startsWith s p = true <-> exists rest, s = p ++ rest.
Proof.
  revert s. induction p as [|x p IH]; intros s; simpl.
  - split; [intros _; now exists s | reflexivity].
  - destruct s as [|y s].
    + split; [discriminate | intros [rest H]; discriminate].
    + rewrite andb_true_iff, N.eqb_eq, IH. split.
      * intros [-> [rest ->]]. now exists rest.
      * intros [rest H]. injection H as -> ->. split; [reflexivity | now exists rest].
Qed.

(** [includes] is "has this substring". *)
Lemma includes_substring (s sub : jsstring) :
  includes s sub = true <-> exists before after, s = before ++ sub ++ after.
Proof.
  induction s as [|c s IH].
  - simpl. rewrite orb_false_r, startsWith_prefix. split.
    + intros [rest H]. now exists [], rest.
    + intros [before [after H]]. destruct before; [now exists after | discriminate].
  - cbn [includes]. rewrite orb_true_iff, startsWith_prefix, IH. split.
    + intros [[rest H] | [before [after H]]].
      * now exists [], rest.
      * exists (c :: before), after. now rewrite H.
    + intros [[|b before] [after H]].
      * left. now exists after.
      * right. injection H as _ H. now exists before, after.
Qed.

Lemma includes_In (s sub : jsstring) (c : code_unit) :
  includes s sub = true -> In c sub -> In c s.
Proof.
  rewrite includes_substring. intros [before [after ->]] H.
  apply in_or_app. right. apply in_or_app. now left.
Qed.

Lemma includes_unit (s : jsstring) (c : code_unit) :
  includes s [c] = true <-> In c s.
Proof.
  rewrite includes_substring. split.
  - intros [before [after ->]]. apply in_elt.
  - intros H. apply in_split in H. destruct H as [before [after ->]].
    now exists before, after.
Qed.

Lemma split_not_nil (sep : code_unit) (s : jsstring) : split sep s <> [].
Proof.
  induction s as [|c s IH]; simpl; [discriminate|].
  destruct (N.eqb c sep); [discriminate|].
  destruct (split sep s); discriminate.
Qed.

(** A string without the separator is its own single field. *)
Lemma split_without_sep (sep : code_unit) (s : jsstring) :
  ~ In sep s -> split sep s = [s].
Proof.
  induction s as [|c s IH]; simpl; intros H; [reflexivity|].
  destruct (N.eqb_spec c sep) as [->|_]; [exfalso; auto|].
  rewrite IH by tauto. reflexivity.
Qed.

(** Splitting at the first separator. *)
Lemma split_at_first (sep : code_unit) (a b : jsstring) :
  ~ In sep a -> split sep (a ++ sep :: b) = a :: split sep b.
Proof.
  induction a as [|c a IH]; simpl; intros H.
  - now rewrite N.eqb_refl.
  - destruct (N.eqb_spec c sep) as [->|_]; [exfalso; auto|].
    rewrite IH by tauto. reflexivity.
Qed.

(** No field contains the separator. *)
Lemma split_fields_without_sep (sep : code_unit) (s field : jsstring) :
  In field (split sep s) -> ~ In sep field.
Proof.
  revert field. induction s as [|c s IH]; simpl; intros field.
  - intros [<-|[]]. auto.
  - destruct (N.eqb_spec c sep) as [->|Hc].
    + intros [<-|H]; [auto | now apply IH].
    + destruct (split sep s) as [|f fs] eqn:E.
      * intros [<-|[]]. simpl. intros [H|[]]. congruence.
      * intros [<-|H].
        -- simpl. intros [H|H]; [congruence|]. apply (IH f); [now left | exact H].
        -- apply IH. now right.
Qed.

(** Every string decomposes at its first separator, if it has one. *)
Lemma first_sep (sep : code_unit) (s : jsstring) :
  In sep s -> exists a b, s = a ++ sep :: b /\ ~ In sep a.
Proof.
  induction s as [|c s IH]; simpl; [tauto|].
  destruct (N.eq_dec c sep) as [->|Hc].
  - intros _. exists [], s. auto.
  - intros [H|H]; [congruence|].
    destruct (IH H) as [a [b [-> Ha]]].
    exists (c :: a), b. split; [reflexivity|]. simpl. tauto.
Qed.

(** A string that has the separator has a field of index 1. *)
Lemma split_second_field (sep : code_unit) (s : jsstring) :
  In sep s -> exists field, nth_error (split sep s) 1 = Some field.
Proof.
  intros H. destruct (first_sep _ _ H) as [a [b [-> Ha]]].
  rewrite split_at_first by assumption. simpl.
  destruct (split sep b) as [|f fs] eqn:E; [now apply split_not_nil in E|].
  now exists f.
Qed.

(** A path made of one or two names without separator has one or two
    components. *)
Lemma split_one_name (n : jsstring) :
  ~ In (cu "/") n -> List.length (split (cu "/") n) = 1.
Proof. intros H. now rewrite split_without_sep. Qed.

Lemma split_two_names (n1 n2 : jsstring) :
  ~ In (cu "/") n1 -> ~ In (cu "/") n2 ->
  List.length (split (cu "/") (n1 ++ js "/" ++ n2)) = 2.
Proof.
  intros H1 H2. change (n1 ++ js "/" ++ n2) with (n1 ++ cu "/" :: n2).
  rewrite split_at_first, split_without_sep by assumption. reflexivity.
Qed.

Lemma afterFirst_app (sep : code_unit) (before after : jsstring) :
  ~ In sep before -> afterFirst sep (before ++ sep :: after) = after.
Proof.
  induction before as [|c before IH]; simpl; intros H.
  - now rewrite N.eqb_refl.
  - destruct (N.eqb_spec c sep) as [->|_]; [exfalso; auto|]. apply IH. tauto.
Qed.

Lemma find_first {A} (f : A -> bool) (earlier later : list A) (x : A) :
  (forall y, In y earlier -> f y = false) -> f x = true ->
  find f (earlier ++ x :: later) = Some x.
Proof.
  induction earlier as [|y earlier IH]; simpl; intros Hnone Hx.
  - now rewrite Hx.
  - rewrite (Hnone y) by now left. apply IH; auto.
Qed.

Lemma filter_nothing {A} (f : A -> bool) (l : list A) :
  (forall x, In x l -> f x = false) -> filter f l = [].
Proof.
  induction l as [|x l IH]; simpl; intros H; [reflexivity|].
  rewrite (H x) by now left. apply IH. auto.
Qed.

End JSFacts.
Import JSFacts.

(* ================================================================= *)
(** ** Running the parts of [detectVenv] *)

Lemma extend_nil (w : world) : extend w [] [] = w.
Proof. destruct w. unfold extend. simpl. now rewrite !app_nil_r. Qed.

Lemma extend_extend (w : world) vs1 evs1 vs2 evs2 :
  extend (extend w vs1 evs1) vs2 evs2 = extend w (vs1 ++ vs2) (evs1 ++ evs2).
Proof. unfold extend. simpl. now rewrite !app_assoc. Qed.

Lemma emit_run (ev : event) (w : world) : emit ev w = (Normal tt, extend w [] [ev]).
Proof. unfold emit, extend. now rewrite app_nil_r. Qed.

Lemma push_run (v : venv) (w : world) : push v w = (Normal tt, extend w [v] []).
Proof. unfold push, extend. now rewrite app_nil_r. Qed.

Section ScannerFacts.

Variable host : Host.

Lemma listSubdir_run (workspacePath subdir : jsstring) (w : world) :
  listSubdir host workspacePath subdir w =
  (Normal (subdirCandidates host workspacePath subdir),
   extend w [] (subdirEvents host workspacePath subdir)).
Proof.
  unfold listSubdir, try_catch, readdirSync, console_warn, bind,
    subdirCandidates, subdirEvents.
  rewrite emit_run.
  destruct (fs_readdir host (path_join host [workspacePath; subdir])) as [e|entries];
    unfold of_result, throw, ret; [|reflexivity].
  rewrite emit_run, extend_extend. reflexivity.
Qed.

Lemma flatMap_listSubdir_run (workspacePath : jsstring) (subdirs : list jsstring)
      (w : world) :
  flatMap (listSubdir host workspacePath) subdirs w =
  (Normal (flat_map (subdirCandidates host workspacePath) subdirs),
   extend w [] (flat_map (subdirEvents host workspacePath) subdirs)).
Proof.
  revert w. induction subdirs as [|d ds IH]; intros w; simpl.
  - unfold ret. now rewrite extend_nil.
  - unfold bind at 1. rewrite listSubdir_run.
    unfold bind at 1. rewrite IH. unfold ret. now rewrite extend_extend.
Qed.

(** The prompt line, when there is one, has a field of index 1 and is not
    the empty string: the [TypeError] branch of the model cannot be taken. *)
Lemma promptLineOf_has_eq (content line : jsstring) :
  promptLineOf content = Some line -> In (cu "=") line.
Proof.
  unfold promptLineOf. intros H. apply find_some in H. destruct H as [_ H].
  apply (includes_In _ _ _ H). vm_compute. tauto.
Qed.

Lemma promptLineOf_field (content line : jsstring) :
  promptLineOf content = Some line ->
  truthy line = true /\
  nth_error (split (cu "=") line) 1 = Some (nth 1 (split (cu "=") line) []).
Proof.
  intros H. apply promptLineOf_has_eq in H. split.
  - destruct line; [destruct H | reflexivity].
  - destruct (split_second_field _ _ H) as [field E]. rewrite E.
    f_equal. symmetry. now apply nth_error_nth.
Qed.

Lemma checkDir_run (workspacePath dir : jsstring) (w : world) :
  checkDir host workspacePath dir w =
  let '(c, venvs, evs) := dirOutcome host workspacePath dir in (c, extend w venvs evs).
Proof.
  unfold checkDir, dirOutcome, activatePathOf.
  destruct (forallb isPathSafe (split (cu "/") dir)); cbn [negb].
  - set (activatePath := path_join host _).
    unfold existsSync, readFileSync, bind. rewrite emit_run. unfold ret at 1.
    destruct (fs_exists host activatePath); [|reflexivity].
    rewrite emit_run, extend_extend.
    destruct (fs_readFile host activatePath) as [e|content];
      unfold of_result, throw; [reflexivity|]. unfold ret at 1.
    fold (promptLineOf content).
    destruct (promptLineOf content) as [line|] eqn:E.
    + destruct (promptLineOf_field _ E) as [-> ->].
      rewrite push_run, extend_extend. reflexivity.
    + unfold ret. now rewrite app_nil_r.
  - unfold console_warn. now rewrite emit_run.
Qed.

Lemma forOf_checkDir_run (workspacePath : jsstring) (dirs : list jsstring)
      (w : world) :
  forOf dirs (checkDir host workspacePath) w =
  let '(c, venvs, evs) := loopOutcome host workspacePath dirs in (c, extend w venvs evs).
Proof.
  revert w. induction dirs as [|d ds IH]; intros w; simpl.
  - unfold ret. now rewrite extend_nil.
  - unfold bind. rewrite checkDir_run.
    destruct (dirOutcome host workspacePath d) as [[[[]|e] venvs] evs]; [|reflexivity].
    rewrite IH. destruct (loopOutcome host workspacePath ds) as [[c venvs'] evs'].
    now rewrite extend_extend.
Qed.

Lemma run_workspace_failure (e : exn) :
  getWorkspaceFolderPath host = inl e ->
  run_detectVenv host = (Normal [], [ConsoleError (FailedToDetect e)]).
Proof.
  intros H. unfold run_detectVenv, detectVenv, bind, try_catch. rewrite H.
  reflexivity.
Qed.

Lemma run_root_failure (workspacePath : jsstring) (e : exn) :
  getWorkspaceFolderPath host = inr workspacePath ->
  fs_readdir host workspacePath = inl e ->
  run_detectVenv host =
  (Normal [], [Readdir workspacePath; ConsoleError (FailedToDetect e)]).
Proof.
  intros H1 H2.
  unfold run_detectVenv, detectVenv, bind, try_catch, readdirSync, bind.
  rewrite H1. simpl. rewrite H2. reflexivity.
Qed.

Lemma run_scan (workspacePath : jsstring) (entries : list Dirent) :
  getWorkspaceFolderPath host = inr workspacePath ->
  fs_readdir host workspacePath = inr entries ->
  run_detectVenv host =
  let '(c, venvs, evs) := loopOutcome host workspacePath (candidates host workspacePath entries) in
  (Normal venvs,
   Readdir workspacePath ::
   flat_map (subdirEvents host workspacePath) (directoryNames entries) ++
   evs ++ handlerEvents c).
Proof.
  intros H1 H2.
  unfold run_detectVenv, detectVenv, bind, try_catch, readdirSync, bind.
  rewrite H1. simpl. rewrite H2. simpl.
  rewrite flatMap_listSubdir_run, forOf_checkDir_run.
  fold (candidates host workspacePath entries).
  destruct (loopOutcome host workspacePath (candidates host workspacePath entries))
    as [[[[]|e] venvs] evs]; simpl.
  - now rewrite app_nil_r.
  - unfold console_error, emit. simpl. now rewrite <- !app_assoc.
Qed.

End ScannerFacts.

(* ================================================================= *)
(** ** Where the records of a scan come from *)

Section ScanRecords.

Variable host : Host.

Lemma dirOutcome_readable (workspacePath dir : jsstring) :
  markerReadable host workspacePath dir = true ->
  dirOutcome host workspacePath dir =
  (Normal tt, venvsOf host workspacePath dir, eventsOf host workspacePath dir).
Proof.
  unfold markerReadable, venvsOf, eventsOf, dirOutcome.
  destruct (forallb isPathSafe (split (cu "/") dir)); [|reflexivity].
  destruct (fs_exists host (activatePathOf host workspacePath dir)); [|reflexivity].
  destruct (fs_readFile host (activatePathOf host workspacePath dir));
    [discriminate | reflexivity].
Qed.

(** A record comes from a candidate with safe segments whose marker file
    exists, was read, and has a prompt line. *)
Lemma venvsOf_In (workspacePath dir : jsstring) (v : venv) :
  In v (venvsOf host workspacePath dir) ->
  forallb isPathSafe (split (cu "/") dir) = true /\
  fs_exists host (activatePathOf host workspacePath dir) = true /\
  exists content line,
    fs_readFile host (activatePathOf host workspacePath dir) = inr content /\
    promptLineOf content = Some line /\
    v = (dir, labelOf line).
Proof.
  unfold venvsOf, dirOutcome.
  destruct (forallb isPathSafe (split (cu "/") dir)); [|intros []].
  destruct (fs_exists host (activatePathOf host workspacePath dir)); [|intros []].
  destruct (fs_readFile host (activatePathOf host workspacePath dir))
    as [e|content]; [intros []|].
  simpl. destruct (promptLineOf content) as [line|] eqn:E; [|intros []].
  intros [<-|[]]. repeat split; eauto.
Qed.

Lemma loopOutcome_venvs_In (workspacePath : jsstring) (dirs : list jsstring) (v : venv) :
  In v (snd (fst (loopOutcome host workspacePath dirs))) ->
  exists dir, In dir dirs /\ In v (venvsOf host workspacePath dir).
Proof.
  induction dirs as [|d ds IH]; simpl; [intros []|].
  destruct (dirOutcome host workspacePath d) as [[[[]|e] venvs] evs] eqn:E.
  - destruct (loopOutcome host workspacePath ds) as [[c venvs'] evs']. simpl in *.
    intros H. apply in_app_or in H. destruct H as [H|H].
    + exists d. split; [now left|]. unfold venvsOf. now rewrite E.
    + destruct (IH H) as [dir [Hd Hv]]. exists dir. split; [now right | exact Hv].
  - simpl. intros H. exists d. split; [now left|]. unfold venvsOf. now rewrite E.
Qed.

(** When every marker file that exists can be read, the loop evaluates
    every candidate. *)
Lemma loopOutcome_complete (workspacePath : jsstring) (dirs : list jsstring) :
  markersReadable host workspacePath dirs = true ->
  loopOutcome host workspacePath dirs =
  (Normal tt, flat_map (venvsOf host workspacePath) dirs, flat_map (eventsOf host workspacePath) dirs).
Proof.
  induction dirs as [|d ds IH]; [reflexivity|].
  unfold markersReadable. cbn [forallb loopOutcome flat_map].
  rewrite andb_true_iff. intros [Hd Hds].
  rewrite (dirOutcome_readable _ _ Hd), (IH Hds). reflexivity.
Qed.

(** Every record of a scan comes from one of its candidates. *)
Lemma scan_record_origin (venvs : list venv) (tr : list event) (v : venv) :
  run_detectVenv host = (Normal venvs, tr) ->
  In v venvs ->
  exists workspacePath entries,
    getWorkspaceFolderPath host = inr workspacePath /\
    fs_readdir host workspacePath = inr entries /\
    In (fst v) (candidates host workspacePath entries) /\
    In v (venvsOf host workspacePath (fst v)).
Proof.
  intros Hrun Hv.
  destruct (getWorkspaceFolderPath host) as [e|workspacePath] eqn:Hws.
  - rewrite (run_workspace_failure _ Hws) in Hrun.
    injection Hrun as <- _. destruct Hv.
  - destruct (fs_readdir host workspacePath) as [e|entries] eqn:Hroot.
    + rewrite (run_root_failure _ Hws Hroot) in Hrun.
      injection Hrun as <- _. destruct Hv.
    + rewrite (run_scan _ Hws Hroot) in Hrun.
      pose proof (@loopOutcome_venvs_In workspacePath
                    (candidates host workspacePath entries) v) as Hloop.
      destruct (loopOutcome host workspacePath (candidates host workspacePath entries))
        as [[c venvs'] evs]. simpl in Hloop.
      injection Hrun as <- _.
      destruct (Hloop Hv) as [dir [Hdir Hin]].
      exists workspacePath, entries.
      destruct (venvsOf_In _ _ _ Hin) as [_ [_ [content [line [_ [_ ->]]]]]].
      simpl. auto.
Qed.

(** A scan whose marker files can all be read returns the records of all
    its candidates, in the order of the candidates. *)
Lemma scan_complete (workspacePath : jsstring) (entries : list Dirent) :
  getWorkspaceFolderPath host = inr workspacePath ->
  fs_readdir host workspacePath = inr entries ->
  markersReadable host workspacePath (candidates host workspacePath entries) = true ->
  run_detectVenv host =
  (Normal (flat_map (venvsOf host workspacePath) (candidates host workspacePath entries)),
   Readdir workspacePath ::
   flat_map (subdirEvents host workspacePath) (directoryNames entries) ++
   flat_map (eventsOf host workspacePath) (candidates host workspacePath entries)).
Proof.
  intros Hws Hroot Hread. rewrite (run_scan _ Hws Hroot).
  rewrite (loopOutcome_complete _ _ Hread). simpl. now rewrite app_nil_r.
Qed.

End ScanRecords.

(** A loop that completes normally has evaluated every candidate. *)
Lemma loopOutcome_normal (host : Host) (workspacePath : jsstring)
      (dirs : list jsstring) (venvs : list venv) (evs : list event) :
  loopOutcome host workspacePath dirs = (Normal tt, venvs, evs) ->
  venvs = flat_map (venvsOf host workspacePath) dirs /\
  evs = flat_map (eventsOf host workspacePath) dirs.
Proof.
  revert venvs evs. induction dirs as [|d ds IH]; intros venvs evs.
  - cbn. intros H. injection H as <- <-. auto.
  - cbn [loopOutcome flat_map]. unfold venvsOf at 1, eventsOf at 1.
    destruct (dirOutcome host workspacePath d) as [[[[]|e] vs1] evs1]; [|discriminate].
    destruct (loopOutcome host workspacePath ds) as [[c vs2] evs2].
    intros H. injection H as -> <- <-.
    destruct (IH _ _ eq_refl) as [<- <-]. auto.
Qed.

(** A scan that logs no error has evaluated every candidate. *)
Lemma scan_without_error (host : Host) (workspacePath : jsstring)
      (entries : list Dirent) (venvs : list venv) (tr : list event) :
  getWorkspaceFolderPath host = inr workspacePath ->
  fs_readdir host workspacePath = inr entries ->
  run_detectVenv host = (Normal venvs, tr) ->
  (forall e, ~ In (ConsoleError (FailedToDetect e)) tr) ->
  venvs = flat_map (venvsOf host workspacePath) (candidates host workspacePath entries) /\
  tr = Readdir workspacePath ::
       flat_map (subdirEvents host workspacePath) (directoryNames entries) ++
       flat_map (eventsOf host workspacePath) (candidates host workspacePath entries).
Proof.
  intros Hws Hroot Hrun Hquiet. rewrite (run_scan _ Hws Hroot) in Hrun.
  destruct (loopOutcome host workspacePath (candidates host workspacePath entries))
    as [[[[]|e] vs] evs] eqn:E.
  - injection Hrun as <- <-. destruct (loopOutcome_normal _ _ _ E) as [-> ->].
    cbn [handlerEvents]. now rewrite app_nil_r.
  - exfalso. injection Hrun as _ <-. apply (Hquiet e).
    right. apply in_or_app. right. apply in_or_app. right. now left.
Qed.

(* ================================================================= *)
(** ** Path safety *)

(** [isPathSafe] accepts exactly the segments that are not unsafe. *)
Lemma isPathSafe_spec (seg : jsstring) :
  isPathSafe seg = true <-> ~ unsafe_segment seg.
Proof.
  unfold isPathSafe, unsafe_segment.
  destruct seg as [|c seg]; [simpl; split; [discriminate | tauto]|].
  cbn [truthy negb List.length Nat.eqb orb].
  destruct (includes (c :: seg) (js "..")) eqn:Hdots.
  { apply includes_substring in Hdots. cbn [orb]. split; [discriminate | tauto]. }
  destruct (includes (c :: seg) [0%N]) eqn:Hnul.
  { apply includes_unit in Hnul. cbn [orb]. split; [discriminate | tauto]. }
  cbn [orb].
  destruct (jsstring_eqb (c :: seg) (js ".")) eqn:Hdot.
  { apply jsstring_eqb_eq in Hdot. cbn [orb]. split; [discriminate | tauto]. }
  destruct (startsWith (c :: seg) (js "/")) eqn:Hroot.
  { apply startsWith_prefix in Hroot. cbn [orb]. split; [discriminate | tauto]. }
  cbn [orb]. split; [intros _ | reflexivity].
  intros [H|[H|[H|[H|H]]]].
  - discriminate.
  - apply includes_substring in H. congruence.
  - apply includes_unit in H. exact (eq_true_false_abs _ H Hnul).
  - apply jsstring_eqb_eq in H. congruence.
  - apply startsWith_prefix in H. congruence.
Qed.

Lemma has_unsafe_segment (dir seg : jsstring) :
  In seg (split (cu "/") dir) -> unsafe_segment seg ->
  forallb isPathSafe (split (cu "/") dir) = false.
Proof.
  intros Hin Hbad.
  destruct (forallb isPathSafe (split (cu "/") dir)) eqn:E; [|reflexivity].
  rewrite forallb_forall in E. apply E in Hin. apply isPathSafe_spec in Hin. tauto.
Qed.

(* ================================================================= *)
(** ** Depth of the traversal *)

Section Depth.

Variable host : Host.

Lemma directoryNames_In (entries : list Dirent) (n : jsstring) :
  In n (directoryNames entries) <->
  exists entry, In entry entries /\ isDirectory entry = true /\ name entry = n.
Proof.
  unfold directoryNames. rewrite in_map_iff. split.
  - intros [entry [Hn H]]. apply filter_In in H. exists entry. tauto.
  - intros [entry [H1 [H2 H3]]]. exists entry. split; [exact H3|].
    apply filter_In. tauto.
Qed.

(** The candidates are the depth-1 directories and, under each depth-1
    directory that can be listed, its directories. *)
Lemma candidates_In (workspacePath : jsstring) (entries : list Dirent) (dir : jsstring) :
  In dir (candidates host workspacePath entries) <->
  In dir (directoryNames entries) \/
  exists depth1 entries1 depth2,
    In depth1 (directoryNames entries) /\
    fs_readdir host (path_join host [workspacePath; depth1]) = inr entries1 /\
    In depth2 (directoryNames entries1) /\
    dir = depth1 ++ js "/" ++ depth2.
Proof.
  unfold candidates. rewrite in_app_iff, in_flat_map. split.
  - intros [H|[depth1 [H1 H2]]]; [now left | right].
    unfold subdirCandidates in H2.
    destruct (fs_readdir host (path_join host [workspacePath; depth1]))
      as [e|entries1] eqn:E; [destruct H2|].
    apply in_map_iff in H2. destruct H2 as [depth2 [<- H2]].
    exists depth1, entries1, depth2. auto.
  - intros [H|[depth1 [entries1 [depth2 [H1 [H2 [H3 ->]]]]]]]; [now left | right].
    exists depth1. split; [exact H1|]. unfold subdirCandidates. rewrite H2.
    apply in_map_iff. now exists depth2.
Qed.

Lemma eventsOf_In (workspacePath dir : jsstring) (ev : event) :
  In ev (eventsOf host workspacePath dir) ->
  ev = ExistsSync (activatePathOf host workspacePath dir)
  \/ ev = ReadFile (activatePathOf host workspacePath dir)
  \/ ev = ConsoleWarn (SkippingUnsafe dir).
Proof.
  unfold eventsOf, dirOutcome.
  destruct (forallb isPathSafe (split (cu "/") dir)).
  - destruct (fs_exists host (activatePathOf host workspacePath dir)).
    + destruct (fs_readFile host (activatePathOf host workspacePath dir));
        simpl; intuition congruence.
    + simpl; intuition congruence.
  - simpl; intuition congruence.
Qed.

Lemma loopOutcome_events_In (workspacePath : jsstring) (dirs : list jsstring)
      (ev : event) :
  In ev (snd (loopOutcome host workspacePath dirs)) ->
  exists dir, In dir dirs /\ In ev (eventsOf host workspacePath dir).
Proof.
  induction dirs as [|d ds IH]; cbn [loopOutcome]; [intros []|].
  destruct (dirOutcome host workspacePath d) as [[[[]|e] venvs] evs] eqn:E.
  - destruct (loopOutcome host workspacePath ds) as [[c venvs'] evs']. simpl in *.
    intros H. apply in_app_or in H. destruct H as [H|H].
    + exists d. split; [now left|]. unfold eventsOf. now rewrite E.
    + destruct (IH H) as [dir [Hd Hev]]. exists dir. split; [now right | exact Hev].
  - simpl. intros H. exists d. split; [now left|]. unfold eventsOf. now rewrite E.
Qed.

Lemma subdirEvents_Readdir (workspacePath : jsstring) (subdirs : list jsstring)
      (p : jsstring) :
  In (Readdir p) (flat_map (subdirEvents host workspacePath) subdirs) ->
  exists depth1, In depth1 subdirs /\ p = path_join host [workspacePath; depth1].
Proof.
  rewrite in_flat_map. intros [depth1 [H1 H2]]. exists depth1. split; [exact H1|].
  unfold subdirEvents in H2. destruct H2 as [H2|H2]; [congruence|].
  destruct (fs_readdir host (path_join host [workspacePath; depth1]));
    simpl in H2; intuition congruence.
Qed.

End Depth.

Lemma directory_entry_names (entries : list Dirent) (n : jsstring) :
  In n (directoryNames entries) <-> directory_entry entries n.
Proof. apply directoryNames_In. Qed.

(** The candidates are exactly the paths at depth 1 or 2 made of directory
    entries. *)
Lemma candidates_within_depth_two (host : Host) (workspacePath : jsstring)
      (entries : list Dirent) (dir : jsstring) :
  In dir (candidates host workspacePath entries) <->
  within_depth_two host workspacePath entries dir.
Proof.
  rewrite candidates_In. unfold within_depth_two, directory_entry. split.
  - intros [H|[depth1 [entries1 [depth2 [H1 [Hsub [H2 ->]]]]]]].
    + left. now apply directoryNames_In.
    + right. exists depth1, entries1, depth2.
      rewrite <- !directoryNames_In. auto.
  - intros [H|[depth1 [entries1 [depth2 [H1 [Hsub [H2 ->]]]]]]].
    + left. now apply directoryNames_In.
    + right. exists depth1, entries1, depth2.
      rewrite !directoryNames_In. auto.
Qed.

Module MockFacts.
Import Mock.

Lemma assoc_In {A} (p : jsstring) (table : list (jsstring * A)) (a : A) :
  assoc p table = Some a -> In (p, a) table.
Proof.
  induction table as [|[q b] table IH]; simpl; [discriminate|].
  destruct (jsstring_eqb p q) eqn:E.
  - apply jsstring_eqb_eq in E. intros H. injection H as ->. left. now subst.
  - intros H. right. auto.
Qed.

Lemma host_of_names workspace dirs files :
  table_names_ok dirs = true ->
  names_without_separator (host_of workspace dirs files).
Proof.
  intros Hok p entries entry Hread Hin Hsep. simpl in Hread.
  destruct (assoc p dirs) as [r|] eqn:E; [subst r | discriminate].
  apply assoc_In in E. unfold table_names_ok in Hok.
  rewrite forallb_forall in Hok. specialize (Hok _ E). simpl in Hok.
  rewrite forallb_forall in Hok. specialize (Hok _ Hin).
  apply negb_true_iff in Hok.
  assert (existsb (N.eqb (cu "/")) (name entry) = true) as Hex.
  { apply existsb_exists. exists (cu "/"). split; [exact Hsep | apply N.eqb_refl]. }
  exact (eq_true_false_abs _ Hex Hok).
Qed.

End MockFacts.

(* ================================================================= *)
(** ** The prompt line and the label *)

Lemma promptLineOf_some (content : jsstring) :
  (exists line, In line (split (cu "010") content) /\
                includes line (js "RUYI_VENV_PROMPT=") = true) ->
  exists line, promptLineOf content = Some line.
Proof.
  intros [line [Hin Hkey]]. unfold promptLineOf.
  destruct (find _ (split (cu "010") content)) as [found|] eqn:E; [now exists found|].
  pose proof (find_none _ _ E _ Hin) as H. simpl in H. congruence.
Qed.

Lemma promptLineOf_none (content : jsstring) :
  (forall line, In line (split (cu "010") content) ->
                includes line (js "RUYI_VENV_PROMPT=") = false) ->
  promptLineOf content = None.
Proof.
  intros H. unfold promptLineOf.
  destruct (find _ (split (cu "010") content)) as [found|] eqn:E; [|reflexivity].
  apply find_some in E. destruct E as [Hin Hkey]. rewrite (H _ Hin) in Hkey.
  discriminate.
Qed.

Lemma promptLineOf_first (content line : jsstring) :
  first_prompt_line content line -> promptLineOf content = Some line.
Proof.
  intros [earlier [later [Hsplit [Hnone Hkey]]]]. unfold promptLineOf.
  rewrite Hsplit. now apply find_first.
Qed.

(** The label of the code is the text between the first [=] of the line
    and its next [=], or the end of the line, trimmed. *)
Lemma labelOf_between (before value rest : jsstring) :
  ~ In (cu "=") before -> ~ In (cu "=") value ->
  (rest = [] \/ exists rest', rest = cu "=" :: rest') ->
  labelOf (before ++ cu "=" :: value ++ rest) = trim value.
Proof.
  intros Hbefore Hvalue Hrest. unfold labelOf.
  rewrite split_at_first by assumption.
  destruct Hrest as [->|[rest' ->]].
  - rewrite app_nil_r, split_without_sep by assumption. reflexivity.
  - rewrite split_at_first by assumption. reflexivity.
Qed.

(** Both readings agree on a line with a single [=]. *)
Lemma labelOf_single_eq (before value : jsstring) :
  ~ In (cu "=") before -> ~ In (cu "=") value ->
  labelOf (before ++ cu "=" :: value) = label_after_first_eq (before ++ cu "=" :: value).
Proof.
  intros Hbefore Hvalue. unfold label_after_first_eq.
  rewrite afterFirst_app by assumption.
  rewrite <- (app_nil_r value) at 1. apply labelOf_between; auto.
Qed.

(* ================================================================= *)
(** ** Warnings and records of a scan *)

Section Isolation.

Variable host : Host.

Lemma listing_warnings (workspacePath subdir : jsstring) (e : exn)
      (subdirs : list jsstring) :
  fs_readdir host (path_join host [workspacePath; subdir]) = inl e ->
  filter (isWarningAbout subdir) (flat_map (subdirEvents host workspacePath) subdirs) =
  repeat (ConsoleWarn (FailedToRead subdir e))
         (count_occ (list_eq_dec N.eq_dec) subdirs subdir).
Proof.
  intros Hfail. induction subdirs as [|d ds IH]; [reflexivity|].
  cbn [flat_map count_occ]. rewrite filter_app, IH. unfold subdirEvents.
  destruct (list_eq_dec N.eq_dec d subdir) as [->|Hneq].
  - rewrite Hfail. cbn [filter isWarningAbout]. now rewrite jsstring_eqb_refl.
  - apply jsstring_eqb_neq in Hneq.
    destruct (fs_readdir host (path_join host [workspacePath; d]));
      cbn [filter isWarningAbout]; [rewrite Hneq|]; reflexivity.
Qed.

Lemma loop_warnings (workspacePath dir : jsstring) (dirs : list jsstring) :
  forallb isPathSafe (split (cu "/") dir) = true ->
  filter (isWarningAbout dir) (snd (loopOutcome host workspacePath dirs)) = [].
Proof.
  intros Hsafe.
  assert (quiet : forall d, filter (isWarningAbout dir) (eventsOf host workspacePath d) = []).
  { intros d. unfold eventsOf, dirOutcome.
    destruct (forallb isPathSafe (split (cu "/") d)) eqn:Hd.
    - destruct (fs_exists host (activatePathOf host workspacePath d)); [|reflexivity].
      destruct (fs_readFile host (activatePathOf host workspacePath d)); reflexivity.
    - cbn [snd filter isWarningAbout].
      destruct (jsstring_eqb d dir) eqn:E; [|reflexivity].
      apply jsstring_eqb_eq in E. congruence. }
  induction dirs as [|d ds IH]; [reflexivity|].
  cbn [loopOutcome]. specialize (quiet d). unfold eventsOf in quiet.
  destruct (dirOutcome host workspacePath d) as [[[[]|e] venvs] evs].
  - destruct (loopOutcome host workspacePath ds) as [[c venvs'] evs'].
    cbn [snd] in *. now rewrite filter_app, quiet, IH.
  - exact quiet.
Qed.

Lemma subdirEvents_listed (workspacePath : jsstring) (subdirs : list jsstring)
      (d : jsstring) :
  In d subdirs ->
  In (Readdir (path_join host [workspacePath; d]))
     (flat_map (subdirEvents host workspacePath) subdirs).
Proof.
  intros H. apply in_flat_map. exists d. split; [exact H | now left].
Qed.

(** The loop reaches a candidate when no candidate before it has a marker
    file that exists and cannot be read; what the candidate pushes is then
    in the array, whatever happens after it. *)
Lemma loop_reaches (workspacePath : jsstring) (before after : list jsstring)
      (dir : jsstring) (v : venv) :
  markersReadable host workspacePath before = true ->
  In v (venvsOf host workspacePath dir) ->
  In v (snd (fst (loopOutcome host workspacePath (before ++ dir :: after)))).
Proof.
  intros Hbefore Hv. induction before as [|d ds IH].
  - cbn [app loopOutcome]. unfold venvsOf in Hv.
    destruct (dirOutcome host workspacePath dir) as [[[[]|e] venvs] evs];
      cbn [fst snd] in Hv.
    + destruct (loopOutcome host workspacePath after) as [[c venvs'] evs'].
      cbn [fst snd]. apply in_or_app. now left.
    + exact Hv.
  - unfold markersReadable in Hbefore. cbn [forallb] in Hbefore.
    apply andb_true_iff in Hbefore. destruct Hbefore as [Hd Hds].
    cbn [app loopOutcome]. rewrite (dirOutcome_readable _ _ _ Hd).
    specialize (IH Hds).
    destruct (loopOutcome host workspacePath (ds ++ dir :: after)) as [[c venvs'] evs'].
    cbn [fst snd] in *. apply in_or_app. now right.
Qed.

(** The same for a scan. *)
Lemma scan_reaches (workspacePath : jsstring) (entries : list Dirent)
      (before after : list jsstring) (dir : jsstring) (v : venv) :
  getWorkspaceFolderPath host = inr workspacePath ->
  fs_readdir host workspacePath = inr entries ->
  candidates host workspacePath entries = before ++ dir :: after ->
  markersReadable host workspacePath before = true ->
  In v (venvsOf host workspacePath dir) ->
  exists venvs tr, run_detectVenv host = (Normal venvs, tr) /\ In v venvs.
Proof.
  intros Hws Hroot Hsplit Hbefore Hv. rewrite (run_scan _ Hws Hroot), Hsplit.
  pose proof (loop_reaches workspacePath before after dir v Hbefore Hv) as H.
  destruct (loopOutcome host workspacePath (before ++ dir :: after)) as [[c venvs] evs].
  eexists _, _. split; [reflexivity | exact H].
Qed.

(** The record of a candidate with a readable marker file that has a prompt
    line. *)
Lemma venvsOf_prompt (workspacePath dir content line : jsstring) :
  forallb isPathSafe (split (cu "/") dir) = true ->
  fs_exists host (activatePathOf host workspacePath dir) = true ->
  fs_readFile host (activatePathOf host workspacePath dir) = inr content ->
  first_prompt_line content line ->
  venvsOf host workspacePath dir = [(dir, labelOf line)].
Proof.
  intros Hsafe Hex Hread Hfirst. unfold venvsOf, dirOutcome.
  now rewrite Hsafe, Hex, Hread, (promptLineOf_first Hfirst).
Qed.

End Isolation.

Lemma listing_failed_to_read (host : Host) (workspacePath subdir : jsstring)
      (e : exn) (subdirs : list jsstring) :
  fs_readdir host (path_join host [workspacePath; subdir]) = inl e ->
  filter (isFailedToRead subdir) (flat_map (subdirEvents host workspacePath) subdirs) =
  repeat (ConsoleWarn (FailedToRead subdir e))
         (count_occ (list_eq_dec N.eq_dec) subdirs subdir).
Proof.
  intros Hfail. rewrite <- (listing_warnings _ _ _ subdirs Hfail).
  apply filter_ext_in. intros ev Hev. apply in_flat_map in Hev.
  destruct Hev as [d [_ Hev]]. unfold subdirEvents in Hev.
  destruct Hev as [<-|Hev]; [reflexivity|].
  destruct (fs_readdir host (path_join host [workspacePath; d]));
    simpl in Hev; [destruct Hev as [<-|[]] | destruct Hev]; reflexivity.
Qed.

Lemma loop_failed_to_read (host : Host) (workspacePath subdir : jsstring)
      (dirs : list jsstring) :
  filter (isFailedToRead subdir) (snd (loopOutcome host workspacePath dirs)) = [].
Proof.
  apply filter_nothing. intros ev Hev.
  apply loopOutcome_events_In in Hev. destruct Hev as [dir [_ Hev]].
  apply eventsOf_In in Hev. destruct Hev as [-> | [-> | ->]]; reflexivity.
Qed.

(** The evaluation of a candidate whose marker file exists and cannot be
    read throws, and the loop stops there: the candidates after it are not
    evaluated. *)
Lemma read_failure_stops_loop (host : Host) (workspacePath dir : jsstring)
      (rest : list jsstring) (e : exn) (w : world) :
  forallb isPathSafe (split (cu "/") dir) = true ->
  fs_exists host (activatePathOf host workspacePath dir) = true ->
  fs_readFile host (activatePathOf host workspacePath dir) = inl e ->
  forOf (dir :: rest) (checkDir host workspacePath) w =
  (Throw e,
   extend w [] [ExistsSync (activatePathOf host workspacePath dir);
                ReadFile (activatePathOf host workspacePath dir)]).
Proof.
  intros Hsafe Hex Hread. rewrite forOf_checkDir_run. cbn [loopOutcome].
  unfold dirOutcome. now rewrite Hsafe, Hex, Hread.
Qed.

(* ================================================================= *)
(** ** The clean command on an inactive environment *)

Example inactive_picked_is_deleted :
  Clean.run_cleanCommand CleanInputs.inactive_picked =
  (Normal tt,
   [ Clean.ExecuteCommand (js "ruyi.venv.detect") (js "clean");
     Clean.ShowWarningMessage
       (js "Are you sure you want to delete the Ruyi venv at ./proj/venvA? This action cannot be undone.")
       true (js "Delete");
     Clean.FsStat (js "/ws/proj/venvA");
     Clean.FsDelete (js "/ws/proj/venvA") true false;
     Clean.ShowInformationMessage (js "Ruyi venv at /ws/proj/venvA has been deleted.") ]).
Proof. vm_compute. reflexivity. Qed.

(* ================================================================= *)
(** ** The loop evaluates a prefix of the candidates *)

Lemma markerReadable_false (host : Host) (workspacePath dir : jsstring) :
  markerReadable host workspacePath dir = false ->
  exists e, markerUnreadable host workspacePath dir e.
Proof.
  unfold markerReadable, markerUnreadable.
  destruct (forallb isPathSafe (split (cu "/") dir)); [|discriminate].
  destruct (fs_exists host (activatePathOf host workspacePath dir)); [|discriminate].
  destruct (fs_readFile host (activatePathOf host workspacePath dir)) as [e|content];
    [|discriminate].
  intros _. now exists e.
Qed.

Lemma dirOutcome_unreadable (host : Host) (workspacePath dir : jsstring) (e : exn) :
  markerUnreadable host workspacePath dir e ->
  dirOutcome host workspacePath dir =
  (Throw e, [],
   [ExistsSync (activatePathOf host workspacePath dir);
    ReadFile (activatePathOf host workspacePath dir)]).
Proof.
  intros [Hsafe [Hex Hread]]. unfold dirOutcome. now rewrite Hsafe, Hex, Hread.
Qed.

(** The loop evaluates the candidates up to the first one whose marker file
    exists and cannot be read, and stops there. *)
Lemma loopOutcome_prefix (host : Host) (workspacePath : jsstring)
      (dirs : list jsstring) :
  exists evaluated rest,
    dirs = evaluated ++ rest /\
    markersReadable host workspacePath evaluated = true /\
    ((rest = [] /\
      loopOutcome host workspacePath dirs =
      (Normal tt, flat_map (venvsOf host workspacePath) evaluated,
       flat_map (eventsOf host workspacePath) evaluated))
     \/
     (exists dir rest' e,
         rest = dir :: rest' /\
         markerUnreadable host workspacePath dir e /\
         loopOutcome host workspacePath dirs =
         (Throw e, flat_map (venvsOf host workspacePath) evaluated,
          flat_map (eventsOf host workspacePath) evaluated ++
          [ExistsSync (activatePathOf host workspacePath dir);
           ReadFile (activatePathOf host workspacePath dir)]))).
Proof.
  induction dirs as [|d ds IH].
  - exists [], []. repeat split. left. split; reflexivity.
  - destruct (markerReadable host workspacePath d) eqn:Hd.
    + destruct IH as [evaluated [rest [Hsplit [Hread Hcases]]]].
      exists (d :: evaluated), rest. split; [now rewrite Hsplit|]. split.
      { unfold markersReadable. cbn [forallb]. now rewrite Hd. }
      cbn [loopOutcome flat_map]. rewrite (dirOutcome_readable _ _ _ Hd).
      destruct Hcases as [[-> Hloop]|[dir [rest' [e [-> [Hbad Hloop]]]]]].
      * left. split; [reflexivity|]. now rewrite Hloop.
      * right. exists dir, rest', e. repeat split; try apply Hbad.
        rewrite Hloop. now rewrite app_assoc.
    + destruct (markerReadable_false _ _ _ Hd) as [e Hbad].
      exists [], (d :: ds). repeat split. right. exists d, ds, e.
      repeat split; try apply Hbad.
      cbn [loopOutcome flat_map app]. now rewrite (dirOutcome_unreadable Hbad).
Qed.

(** The events of evaluating a candidate, by kind. *)
Lemma eventsOf_safe (host : Host) (workspacePath dir : jsstring) (ev : event) :
  In ev (eventsOf host workspacePath dir) ->
  (ev = ConsoleWarn (SkippingUnsafe dir) /\
   forallb isPathSafe (split (cu "/") dir) = false)
  \/ (ev = ExistsSync (activatePathOf host workspacePath dir) /\
      forallb isPathSafe (split (cu "/") dir) = true)
  \/ (ev = ReadFile (activatePathOf host workspacePath dir) /\
      forallb isPathSafe (split (cu "/") dir) = true /\
      fs_exists host (activatePathOf host workspacePath dir) = true).
Proof.
  unfold eventsOf, dirOutcome.
  destruct (forallb isPathSafe (split (cu "/") dir)).
  - destruct (fs_exists host (activatePathOf host workspacePath dir)).
    + destruct (fs_readFile host (activatePathOf host workspacePath dir));
        simpl; intuition (subst; auto).
    + simpl; intuition (subst; auto).
  - simpl; intuition (subst; auto).
Qed.

(** The result and the trace of a scan whose root was listed. *)
Lemma scan_shape (host : Host) (workspacePath : jsstring) (entries : list Dirent) :
  getWorkspaceFolderPath host = inr workspacePath ->
  fs_readdir host workspacePath = inr entries ->
  exists evaluated rest,
    candidates host workspacePath entries = evaluated ++ rest /\
    markersReadable host workspacePath evaluated = true /\
    ((rest = [] /\
      run_detectVenv host =
      (Normal (flat_map (venvsOf host workspacePath) evaluated),
       Readdir workspacePath ::
       flat_map (subdirEvents host workspacePath) (directoryNames entries) ++
       flat_map (eventsOf host workspacePath) evaluated))
     \/
     (exists dir rest' e,
         rest = dir :: rest' /\
         markerUnreadable host workspacePath dir e /\
         run_detectVenv host =
         (Normal (flat_map (venvsOf host workspacePath) evaluated),
          Readdir workspacePath ::
          flat_map (subdirEvents host workspacePath) (directoryNames entries) ++
          flat_map (eventsOf host workspacePath) evaluated ++
          [ExistsSync (activatePathOf host workspacePath dir);
           ReadFile (activatePathOf host workspacePath dir);
           ConsoleError (FailedToDetect e)]))).
Proof.
  intros Hws Hroot. rewrite (run_scan _ Hws Hroot).
  destruct (loopOutcome_prefix host workspacePath (candidates host workspacePath entries))
    as [evaluated [rest [Hsplit [Hread Hcases]]]].
  exists evaluated, rest. split; [exact Hsplit|]. split; [exact Hread|].
  destruct Hcases as [[-> Hloop]|[dir [rest' [e [-> [Hbad Hloop]]]]]].
  - left. split; [reflexivity|]. rewrite Hloop. cbn [handlerEvents].
    now rewrite app_nil_r.
  - right. exists dir, rest', e. split; [reflexivity|]. split; [exact Hbad|].
    rewrite Hloop. cbn [handlerEvents]. now rewrite <- !app_assoc.
Qed.

(** The listing phase logs no error and probes nothing. *)
Lemma subdirEvents_kinds (host : Host) (workspacePath : jsstring)
      (subdirs : list jsstring) (ev : event) :
  In ev (flat_map (subdirEvents host workspacePath) subdirs) ->
  (exists d, In d subdirs /\ ev = Readdir (path_join host [workspacePath; d]))
  \/ (exists d e, In d subdirs /\
                  fs_readdir host (path_join host [workspacePath; d]) = inl e /\
                  ev = ConsoleWarn (FailedToRead d e)).
Proof.
  rewrite in_flat_map. intros [d [Hd Hev]]. unfold subdirEvents in Hev.
  destruct Hev as [<-|Hev]; [left; now exists d|].
  destruct (fs_readdir host (path_join host [workspacePath; d])) as [e|l] eqn:E;
    simpl in Hev; [|destruct Hev].
  destruct Hev as [<-|[]]. right. now exists d, e.
Qed.

(* ================================================================= *)
(** ** Counting the events of a scan *)

Lemma count_app (kind : event -> bool) (a b : list event) :
  count kind (a ++ b) = count kind a + count kind b.
Proof. unfold count. now rewrite filter_app, length_app. Qed.

Lemma count_zero_In (kind : event -> bool) (tr : list event) :
  count kind tr = 0 <-> forall ev, In ev tr -> kind ev = false.
Proof.
  unfold count. induction tr as [|ev tr IH]; simpl.
  - split; [intros _ ev [] | reflexivity].
  - destruct (kind ev) eqn:E; simpl.
    + split; [discriminate|]. intros H. specialize (H ev (or_introl eq_refl)). congruence.
    + rewrite IH. split.
      * intros H ev' [<-|H']; auto.
      * intros H ev' H'. apply H. now right.
Qed.

(** What evaluating one candidate costs: no listing, at most one probe, a
    read only after a probe, a record only after a read. *)
Lemma eventsOf_cost (host : Host) (workspacePath dir : jsstring) :
  count isReaddir (eventsOf host workspacePath dir) = 0 /\
  count isConsoleError (eventsOf host workspacePath dir) = 0 /\
  count isExistsSync (eventsOf host workspacePath dir) <= 1 /\
  count isReadFile (eventsOf host workspacePath dir)
    <= count isExistsSync (eventsOf host workspacePath dir) /\
  List.length (venvsOf host workspacePath dir)
    <= count isReadFile (eventsOf host workspacePath dir).
Proof.
  unfold eventsOf, venvsOf, dirOutcome.
  destruct (forallb isPathSafe (split (cu "/") dir)); [|cbn; lia].
  destruct (fs_exists host (activatePathOf host workspacePath dir)); [|cbn; lia].
  destruct (fs_readFile host (activatePathOf host workspacePath dir)) as [e|content];
    [cbn; lia|].
  destruct (promptLineOf content); cbn; lia.
Qed.

Lemma loop_cost (host : Host) (workspacePath : jsstring) (dirs : list jsstring) :
  count isReaddir (flat_map (eventsOf host workspacePath) dirs) = 0 /\
  count isConsoleError (flat_map (eventsOf host workspacePath) dirs) = 0 /\
  count isExistsSync (flat_map (eventsOf host workspacePath) dirs) <= List.length dirs /\
  count isReadFile (flat_map (eventsOf host workspacePath) dirs)
    <= count isExistsSync (flat_map (eventsOf host workspacePath) dirs) /\
  List.length (flat_map (venvsOf host workspacePath) dirs)
    <= count isReadFile (flat_map (eventsOf host workspacePath) dirs).
Proof.
  induction dirs as [|d ds IH]; [cbn; lia|].
  cbn [flat_map List.length]. rewrite !count_app, length_app.
  pose proof (eventsOf_cost host workspacePath d). lia.
Qed.

Lemma listing_cost (host : Host) (workspacePath : jsstring) (subdirs : list jsstring) :
  count isReaddir (flat_map (subdirEvents host workspacePath) subdirs)
    = List.length subdirs /\
  count isConsoleError (flat_map (subdirEvents host workspacePath) subdirs) = 0 /\
  count isExistsSync (flat_map (subdirEvents host workspacePath) subdirs) = 0 /\
  count isReadFile (flat_map (subdirEvents host workspacePath) subdirs) = 0.
Proof.
  induction subdirs as [|d ds IH]; [cbn; lia|].
  cbn [flat_map List.length]. rewrite !count_app. unfold subdirEvents at 1 3 5 7.
  destruct (fs_readdir host (path_join host [workspacePath; d])); cbn; lia.
Qed.

Lemma count_zero_no_error (tr : list event) :
  count isConsoleError tr = 0 -> forall m, ~ In (ConsoleError m) tr.
Proof.
  intros H m Hin. destruct (@count_zero_In isConsoleError tr) as [Hzero _].
  specialize (Hzero H _ Hin). discriminate.
Qed.

(** The trace of a scan up to the handler has no error in it. *)
Lemma scan_body_quiet (host : Host) (workspacePath : jsstring)
      (subdirs dirs : list jsstring) (tail : list event) :
  count isConsoleError tail = 0 ->
  count isConsoleError
    (Readdir workspacePath ::
     flat_map (subdirEvents host workspacePath) subdirs ++
     flat_map (eventsOf host workspacePath) dirs ++ tail) = 0.
Proof.
  intros Htail. change (Readdir workspacePath :: ?l) with ([Readdir workspacePath] ++ l).
  rewrite !count_app.
  pose proof (listing_cost host workspacePath subdirs).
  pose proof (loop_cost host workspacePath dirs). cbn. lia.
Qed.

(** A candidate that gives a record was probed and read. *)
Lemma venvsOf_events (host : Host) (workspacePath dir : jsstring) (v : venv) :
  In v (venvsOf host workspacePath dir) ->
  eventsOf host workspacePath dir =
  [ExistsSync (activatePathOf host workspacePath dir);
   ReadFile (activatePathOf host workspacePath dir)].
Proof.
  unfold venvsOf, eventsOf, dirOutcome.
  destruct (forallb isPathSafe (split (cu "/") dir)); [|intros []].
  destruct (fs_exists host (activatePathOf host workspacePath dir)); [|intros []].
  destruct (fs_readFile host (activatePathOf host workspacePath dir)); [intros []|].
  reflexivity.
Qed.

(** [find] returns the first element that passes the test. *)
Lemma find_some_first {A} (f : A -> bool) (l : list A) (x : A) :
  find f l = Some x ->
  exists earlier later,
    l = earlier ++ x :: later /\ (forall y, In y earlier -> f y = false) /\ f x = true.
Proof.
  induction l as [|y l IH]; simpl; [discriminate|].
  destruct (f y) eqn:E.
  - intros H. injection H as ->. exists [], l. repeat split; auto. intros y [].
  - intros H. destruct (IH H) as [earlier [later [-> [Hnone Hx]]]].
    exists (y :: earlier), later. repeat split; auto.
    intros z [<-|Hz]; auto.
Qed.

Lemma promptLineOf_is_first (content line : jsstring) :
  promptLineOf content = Some line -> first_prompt_line content line.
Proof.
  unfold promptLineOf, first_prompt_line. intros H.
  destruct (find_some_first _ _ H) as [earlier [later [Hsplit [Hnone Hkey]]]].
  exists earlier, later. auto.
Qed.

(* ================================================================= *)
(** ** Trimming and fields *)

Lemma trimStart_decompose (s : jsstring) :
  exists removed,
    s = removed ++ trimStart s /\ forallb isWhiteSpace removed = true.
Proof.
  induction s as [|c s [removed [Hs Hws]]]; [now exists []|].
  cbn [trimStart]. destruct (isWhiteSpace c) eqn:E.
  - exists (c :: removed). split; [cbn; now f_equal | cbn; now rewrite E].
  - now exists [].
Qed.

Lemma trimStart_head (s rest : jsstring) (c : code_unit) :
  trimStart s = c :: rest -> isWhiteSpace c = false.
Proof.
  induction s as [|d s IH]; cbn [trimStart]; [discriminate|].
  destruct (isWhiteSpace d) eqn:E; [exact IH|].
  intros H. injection H as <- _. exact E.
Qed.

Lemma trimStart_whitespace_app (removed s : jsstring) :
  forallb isWhiteSpace removed = true -> trimStart (removed ++ s) = trimStart s.
Proof.
  induction removed as [|c removed IH]; cbn [forallb app trimStart]; [reflexivity|].
  rewrite andb_true_iff. intros [-> H]. now apply IH.
Qed.

Lemma trimStart_app (s t : jsstring) :
  trimStart s <> [] -> trimStart (s ++ t) = trimStart s ++ t.
Proof.
  induction s as [|c s IH]; cbn [trimStart app]; [congruence|].
  destruct (isWhiteSpace c); [exact IH | reflexivity].
Qed.

Lemma trimStart_all_whitespace (s : jsstring) :
  forallb isWhiteSpace s = true -> trimStart s = [].
Proof.
  intros H. rewrite <- (app_nil_r s). now rewrite trimStart_whitespace_app.
Qed.

(** [trimEnd] keeps a prefix and removes whitespace only. *)
Lemma trimEnd_decompose (s : jsstring) :
  exists removed,
    s = trimEnd s ++ removed /\ forallb isWhiteSpace removed = true.
Proof.
  destruct (trimStart_decompose (rev s)) as [removed [Hs Hws]].
  exists (rev removed). split.
  - unfold trimEnd. rewrite <- rev_app_distr, <- Hs. now rewrite rev_involutive.
  - rewrite forallb_forall in *. intros c Hc. apply Hws. now apply in_rev.
Qed.

Lemma trimEnd_whitespace_app (s removed : jsstring) :
  forallb isWhiteSpace removed = true -> trimEnd (s ++ removed) = trimEnd s.
Proof.
  intros H. unfold trimEnd. rewrite rev_app_distr, trimStart_whitespace_app; [reflexivity|].
  rewrite forallb_forall in *. intros c Hc. apply H. now apply in_rev.
Qed.

(** A trimmed string does not begin or end with whitespace, and has only
    code units of the string it comes from. *)
Lemma trim_head (s rest : jsstring) (c : code_unit) :
  trim s = c :: rest -> isWhiteSpace c = false.
Proof.
  unfold trim. intros H.
  destruct (trimEnd_decompose (trimStart s)) as [removed [Hs _]].
  rewrite H in Hs. cbn in Hs. exact (trimStart_head _ Hs).
Qed.

Lemma trim_last (s init : jsstring) (c : code_unit) :
  trim s = init ++ [c] -> isWhiteSpace c = false.
Proof.
  unfold trim, trimEnd. intros H.
  apply (f_equal (@rev code_unit)) in H.
  rewrite rev_involutive, rev_app_distr in H. cbn in H.
  exact (trimStart_head _ H).
Qed.

Lemma trim_In (s : jsstring) (c : code_unit) : In c (trim s) -> In c s.
Proof.
  unfold trim. intros H.
  destruct (trimEnd_decompose (trimStart s)) as [r1 [H1 _]].
  destruct (trimStart_decompose s) as [r2 [H2 _]].
  rewrite H2. apply in_or_app. right. rewrite H1. apply in_or_app. now left.
Qed.

(** Whitespace after a string does not change what [trim] gives. *)
Lemma trim_whitespace_app (s removed : jsstring) :
  forallb isWhiteSpace removed = true -> trim (s ++ removed) = trim s.
Proof.
  intros H. unfold trim. destruct (trimStart s) as [|c t] eqn:E.
  - destruct (trimStart_decompose s) as [r [Hs Hr]]. rewrite E, app_nil_r in Hs.
    subst r. rewrite trimStart_all_whitespace; [reflexivity|].
    rewrite forallb_app. now rewrite Hr, H.
  - rewrite trimStart_app by (rewrite E; discriminate).
    rewrite E. now apply trimEnd_whitespace_app.
Qed.

(** The code units of a field are code units of the string. *)
Lemma split_field_In (sep : code_unit) (s field : jsstring) (c : code_unit) :
  In field (split sep s) -> In c field -> In c s.
Proof.
  revert field. induction s as [|d s IH]; cbn [split]; intros field.
  - intros [<-|[]] [].
  - destruct (N.eqb d sep).
    + intros [<-|H] Hc; [destruct Hc|]. right. exact (IH _ H Hc).
    + destruct (split sep s) as [|f fs].
      * intros [<-|[]] [<-|[]]. now left.
      * intros [<-|H] Hc.
        -- destruct Hc as [<-|Hc]; [now left|]. right. apply (IH f); [now left | exact Hc].
        -- right. apply (IH field); [now right | exact Hc].
Qed.

Lemma whitespace_without_eq (removed : jsstring) :
  forallb isWhiteSpace removed = true -> ~ In (cu "=") removed.
Proof.
  intros H Hin. rewrite forallb_forall in H. specialize (H _ Hin). discriminate.
Qed.

(** The field of index 1, or the empty string, is without separator and
    made of code units of the string. *)
Lemma second_field (sep : code_unit) (s : jsstring) :
  ~ In sep (nth 1 (split sep s) []) /\
  forall c, In c (nth 1 (split sep s) []) -> In c s.
Proof.
  destruct (nth_in_or_default 1 (split sep s) []) as [H | ->].
  - split; [exact (@split_fields_without_sep _ _ _ H)|].
    intros c. exact (@split_field_In _ _ _ c H).
  - split; [intros [] | intros c []].
Qed.

(* ================================================================= *)
(** ** Candidates without duplicates *)

Lemma distinct_NoDup (l : list jsstring) : distinct l = true -> NoDup l.
Proof.
  induction l as [|x l IH]; cbn [distinct]; [constructor|].
  rewrite andb_true_iff, negb_true_iff. intros [Hx Hl]. constructor; [|auto].
  intros Hin.
  assert (existsb (jsstring_eqb x) l = true) as H.
  { apply existsb_exists. exists x. split; [exact Hin | apply jsstring_eqb_refl]. }
  exact (eq_true_false_abs _ H Hx).
Qed.

Lemma host_of_distinct workspace dirs files :
  table_names_distinct dirs = true ->
  listings_without_duplicates (Mock.host_of workspace dirs files).
Proof.
  intros Hok p entries Hread. simpl in Hread.
  destruct (Mock.assoc p dirs) as [r|] eqn:E; [subst r | discriminate].
  apply MockFacts.assoc_In in E. unfold table_names_distinct in Hok.
  rewrite forallb_forall in Hok. specialize (Hok _ E). simpl in Hok.
  now apply distinct_NoDup.
Qed.

Lemma NoDup_map_filter {A B} (f : A -> B) (keep : A -> bool) (l : list A) :
  NoDup (map f l) -> NoDup (map f (filter keep l)).
Proof.
  induction l as [|x l IH]; cbn [map filter]; [auto|].
  intros H. apply NoDup_cons_iff in H. destruct H as [Hx Hl].
  destruct (keep x); [|auto]. cbn [map]. constructor; [|auto].
  intros Hin. apply Hx. apply in_map_iff in Hin. destruct Hin as [y [Hy Hin]].
  apply filter_In in Hin. apply in_map_iff. exists y. tauto.
Qed.

Lemma NoDup_map_injective {A B} (f : A -> B) (l : list A) :
  (forall x y, f x = f y -> x = y) -> NoDup l -> NoDup (map f l).
Proof.
  intros Hinj. induction l as [|x l IH]; cbn [map]; intros H; [constructor|].
  apply NoDup_cons_iff in H. destruct H as [Hx Hl]. constructor; [|auto].
  intros Hin. apply in_map_iff in Hin. destruct Hin as [y [Hy Hin]].
  apply Hinj in Hy. now subst y.
Qed.

(** A depth-2 path determines its two names. *)
Lemma depth2_path_inj (d1 d2 d1' d2' : jsstring) :
  ~ In (cu "/") d1 -> ~ In (cu "/") d1' ->
  d1 ++ js "/" ++ d2 = d1' ++ js "/" ++ d2' -> d1 = d1' /\ d2 = d2'.
Proof.
  intros H1 H1' Heq.
  assert (d1 = d1') as <-.
  { apply (f_equal (split (cu "/"))) in Heq.
    change (d1 ++ js "/" ++ d2) with (d1 ++ cu "/" :: d2) in Heq.
    change (d1' ++ js "/" ++ d2') with (d1' ++ cu "/" :: d2') in Heq.
    rewrite !split_at_first in Heq by assumption. now injection Heq. }
  split; [reflexivity|]. apply app_inv_head in Heq. now injection Heq.
Qed.

Lemma NoDup_flat_map {A B} (f : A -> list B) (l : list A) :
  NoDup l ->
  (forall x, In x l -> NoDup (f x)) ->
  (forall x y b, In x l -> In y l -> In b (f x) -> In b (f y) -> x = y) ->
  NoDup (flat_map f l).
Proof.
  induction l as [|x l IH]; cbn [flat_map]; intros Hl Hf Hdisj; [constructor|].
  apply NoDup_cons_iff in Hl. destruct Hl as [Hx Hl].
  apply NoDup_app.
  - apply Hf. now left.
  - apply IH; [exact Hl | |].
    + intros y Hy. apply Hf. now right.
    + intros y z b Hy Hz. apply Hdisj; now right.
  - intros b Hb Hb'. apply in_flat_map in Hb'. destruct Hb' as [y [Hy Hb']].
    apply Hx. rewrite (Hdisj x y b); auto; [now left | now right].
Qed.

(** In a tree whose names have no separator and whose listings have no
    duplicate, no candidate comes twice. *)
Lemma candidates_NoDup (host : Host) (workspacePath : jsstring)
      (entries : list Dirent) :
  names_without_separator host ->
  listings_without_duplicates host ->
  fs_readdir host workspacePath = inr entries ->
  NoDup (candidates host workspacePath entries).
Proof.
  intros Hnames Hdistinct Hroot.
  assert (Hname : forall p l n, fs_readdir host p = inr l ->
                                In n (directoryNames l) -> ~ In (cu "/") n).
  { intros p l n Hp Hn. apply directoryNames_In in Hn.
    destruct Hn as [entry [Hentry [_ <-]]]. exact (Hnames _ _ _ Hp Hentry). }
  assert (Hsub : forall d b, In b (subdirCandidates host workspacePath d) ->
                             exists l d2,
                               fs_readdir host (path_join host [workspacePath; d]) = inr l /\
                               In d2 (directoryNames l) /\ b = d ++ js "/" ++ d2).
  { intros d b Hb. unfold subdirCandidates in Hb.
    destruct (fs_readdir host (path_join host [workspacePath; d])) as [e|l] eqn:E;
      [destruct Hb|].
    apply in_map_iff in Hb. destruct Hb as [d2 [<- Hd2]]. now exists l, d2. }
  unfold candidates. apply NoDup_app.
  - apply NoDup_map_filter. exact (Hdistinct _ _ Hroot).
  - apply NoDup_flat_map.
    + apply NoDup_map_filter. exact (Hdistinct _ _ Hroot).
    + intros d Hd. unfold subdirCandidates.
      destruct (fs_readdir host (path_join host [workspacePath; d])) as [e|l] eqn:E;
        [constructor|].
      apply NoDup_map_injective.
      * intros a b Hab. apply app_inv_head in Hab. now apply app_inv_head in Hab.
      * apply NoDup_map_filter. exact (Hdistinct _ _ E).
    + intros d d' b Hd Hd' Hb Hb'.
      destruct (Hsub _ _ Hb) as [l [d2 [_ [_ ->]]]].
      destruct (Hsub _ _ Hb') as [l' [d2' [_ [_ Heq]]]].
      apply depth2_path_inj in Heq; [tauto | |]; eapply Hname; eauto.
  - intros n Hn Hn'. apply in_flat_map in Hn'. destruct Hn' as [d [_ Hb]].
    destruct (Hsub _ _ Hb) as [l [d2 [_ [_ ->]]]].
    apply (Hname _ _ _ Hroot Hn). apply in_or_app. right. now left.
Qed.

(** The relative paths of the records of distinct candidates are
    distinct. *)
Lemma records_NoDup (host : Host) (workspacePath : jsstring) (dirs : list jsstring) :
  NoDup dirs -> NoDup (map fst (flat_map (venvsOf host workspacePath) dirs)).
Proof.
  induction dirs as [|d ds IH]; cbn [flat_map map]; intros H; [constructor|].
  apply NoDup_cons_iff in H. destruct H as [Hd Hds]. rewrite map_app.
  apply NoDup_app.
  - unfold venvsOf, dirOutcome.
    destruct (forallb isPathSafe (split (cu "/") d)); [|constructor].
    destruct (fs_exists host (activatePathOf host workspacePath d)); [|constructor].
    destruct (fs_readFile host (activatePathOf host workspacePath d)) as [e|content];
      [constructor|].
    cbn [fst snd]. destruct (promptLineOf content); cbn; repeat constructor. intros [].
  - auto.
  - intros p Hp Hp'. apply in_map_iff in Hp. destruct Hp as [[p1 l1] [<- Hv]].
    destruct (@venvsOf_In _ _ _ _ Hv) as [_ [_ [c [l [_ [_ Heq]]]]]].
    injection Heq as -> _. cbn [fst] in Hp'.
    apply in_map_iff in Hp'. destruct Hp' as [[p2 l2] [Hp2 Hv']].
    apply in_flat_map in Hv'. destruct Hv' as [d' [Hd' Hv']].
    destruct (@venvsOf_In _ _ _ _ Hv') as [_ [_ [c' [l' [_ [_ Heq']]]]]].
    injection Heq' as -> _. cbn [fst] in Hp2. subst d'. contradiction.
Qed.

(* ================================================================= *)
(** ** Segments and the whole path *)

(** Splitting at any separator. *)
Lemma split_app_sep (sep : code_unit) (a b : jsstring) :
  split sep (a ++ sep :: b) = split sep a ++ split sep b.
Proof.
  induction a as [|c a IH]; cbn [app split].
  - now rewrite N.eqb_refl.
  - destruct (N.eqb c sep); rewrite IH; [reflexivity|].
    destruct (split sep a) as [|f fs] eqn:E; [now apply split_not_nil in E|].
    reflexivity.
Qed.

(** A code unit that is not the separator is in a field. *)
Lemma In_split_field (sep c : code_unit) (s : jsstring) :
  In c s -> c <> sep -> exists field, In field (split sep s) /\ In c field.
Proof.
  intros Hin Hc. induction s as [|d s IH]; [destruct Hin|].
  cbn [split]. destruct (N.eqb_spec d sep) as [->|Hd].
  - destruct Hin as [->|Hin]; [congruence|].
    destruct (IH Hin) as [field [Hf Hcf]]. exists field. split; [now right | exact Hcf].
  - destruct (split sep s) as [|f fs] eqn:E; [now apply split_not_nil in E|].
    destruct Hin as [->|Hin].
    + exists (c :: f). split; now left.
    + destruct (IH Hin) as [field [[<-|Hf] Hcf]].
      * exists (d :: f). split; [now left | now right].
      * exists field. split; [now right | exact Hcf].
Qed.

Lemma includes_cons (c : code_unit) (s sub : jsstring) :
  includes s sub = true -> includes (c :: s) sub = true.
Proof. intros H. cbn [includes]. rewrite H. apply orb_true_r. Qed.

(** A prefix without separator is a prefix of the first field. *)
Lemma startsWith_first_field (sep : code_unit) (s p : jsstring) :
  ~ In sep p -> startsWith s p = true ->
  startsWith (nth 0 (split sep s) []) p = true.
Proof.
  revert s. induction p as [|x p IH]; intros s Hsep Hp; [reflexivity|].
  destruct s as [|y s]; [discriminate|]. cbn [startsWith] in Hp.
  apply andb_true_iff in Hp. destruct Hp as [Hxy Hp]. apply N.eqb_eq in Hxy. subst y.
  cbn [split]. destruct (N.eqb_spec x sep) as [->|Hx]; [exfalso; apply Hsep; now left|].
  assert (Hp' : ~ In sep p) by (intros H; apply Hsep; now right).
  specialize (IH s Hp' Hp).
  destruct (split sep s) as [|f fs] eqn:E; [now apply split_not_nil in E|].
  cbn [nth] in *. cbn [startsWith]. now rewrite N.eqb_refl, IH.
Qed.

(** A substring without separator lies in one field. *)
Lemma includes_split (sep : code_unit) (s sub : jsstring) :
  ~ In sep sub -> includes s sub = true ->
  exists field, In field (split sep s) /\ includes field sub = true.
Proof.
  intros Hsep. induction s as [|c s IH]; intros H.
  - exists []. split; [now left | exact H].
  - cbn [includes] in H. apply orb_true_iff in H. destruct H as [H|H].
    + exists (nth 0 (split sep (c :: s)) []). split.
      * apply nth_In. pose proof (@split_not_nil sep (c :: s)).
        destruct (split sep (c :: s)); [congruence | cbn; lia].
      * pose proof (@startsWith_first_field sep (c :: s) sub Hsep H) as Hf.
        destruct (nth 0 (split sep (c :: s)) []); cbn [includes]; now rewrite Hf.
    + destruct (IH H) as [field [Hf Hin]]. cbn [split].
      destruct (N.eqb c sep); [exists field; split; [now right | exact Hin]|].
      destruct (split sep s) as [|f fs]; [destruct Hf|].
      destruct Hf as [<-|Hf].
      * exists (c :: f). split; [now left | now apply includes_cons].
      * exists field. split; [now right | exact Hin].
Qed.

(** What a path whose segments all pass [isPathSafe] looks like as a
    whole. *)
Lemma safe_path_shape (dir : jsstring) :
  forallb isPathSafe (split (cu "/") dir) = true ->
  dir <> [] /\
  startsWith dir (js "/") = false /\
  (forall init, dir <> init ++ js "/") /\
  includes dir (js "//") = false /\
  includes dir (js "..") = false /\
  ~ In 0%N dir.
Proof.
  intros Hsafe.
  assert (reject : forall seg, In seg (split (cu "/") dir) -> unsafe_segment seg -> False).
  { intros seg Hin Hbad. rewrite (has_unsafe_segment _ Hin Hbad) in Hsafe. discriminate. }
  assert (empty : In [] (split (cu "/") dir) -> False).
  { intros H. apply (reject [] H). now left. }
  repeat split.
  - intros ->. apply empty. now left.
  - destruct (startsWith dir (js "/")) eqn:E; [|reflexivity]. exfalso.
    apply startsWith_prefix in E. destruct E as [rest ->].
    apply empty. cbn. now left.
  - intros init ->. apply empty.
    change (init ++ js "/") with (init ++ cu "/" :: []).
    rewrite split_app_sep. apply in_or_app. right. now left.
  - destruct (includes dir (js "//")) eqn:E; [|reflexivity]. exfalso.
    apply includes_substring in E. destruct E as [before [after ->]].
    apply empty.
    change (before ++ js "//" ++ after) with (before ++ cu "/" :: (cu "/" :: after)).
    rewrite split_app_sep. apply in_or_app. right. cbn. now left.
  - destruct (includes dir (js "..")) eqn:E; [|reflexivity]. exfalso.
    apply includes_split with (sep := cu "/") in E.
    + destruct E as [seg [Hin Hdots]]. apply (reject seg Hin).
      right. left. now apply includes_substring.
    + vm_compute. intuition discriminate.
  - intros H. apply In_split_field with (sep := cu "/") in H; [|discriminate].
    destruct H as [seg [Hin Hnul]]. apply (reject seg Hin). right. right. now left.
Qed.

(* ================================================================= *)
(** ** Running the clean command *)

Module CleanFacts.
Import Clean CleanOutcome.

(** [venvPath] always begins with [./], so [cleanPath] is [rawPath]. *)
Lemma cleanPath_is_rawPath (raw : jsstring) :
  (if startsWith (js "./" ++ raw) (js "./") then skipn 2 (js "./" ++ raw)
   else js "./" ++ raw) = raw.
Proof. reflexivity. Qed.

Lemma cleanCommand_run (wb : Workbench) : run_cleanCommand wb = cleanOutcome wb.
Proof.
  unfold run_cleanCommand, cleanCommand, cleanOutcome, executeCommand, bind.
  cbn [tell app]. destruct (detect_pick wb) as [e|[picked|]]; try reflexivity.
  cbn [of_result ret].
  destruct (strict_eq (js "./" ++ rawPath picked) (currentVenv wb)); [reflexivity|].
  unfold showWarningMessage, bind. cbn [tell app ret]. fold (confirmText picked).
  destruct (strict_eq (js "Delete") (warning_choice wb (confirmText picked)));
    [|reflexivity].
  unfold try_catch, bind, stat, delete, showInformationMessage, showErrorMessage, bind.
  rewrite cleanPath_is_rawPath. unfold jsstring, code_unit.
  destruct (workspaceFolderPath wb) as [e|ws]; cbn [of_result throw ret].
  { destruct e; reflexivity. }
  cbn [tell app].
  destruct (workspace_stat wb _) as [e|[]]; cbn [of_result throw ret].
  { destruct e; reflexivity. }
  destruct (workspace_delete wb _) as [e|[]]; cbn [of_result throw ret].
  { destruct e; reflexivity. }
  reflexivity.
Qed.

Lemma strict_eq_true (a : jsstring) (b : option jsstring) :
  strict_eq a b = true <-> b = Some a.
Proof.
  destruct b as [s|]; cbn [strict_eq].
  - rewrite jsstring_eqb_eq. split; congruence.
  - split; discriminate.
Qed.

Lemma strict_eq_false (a : jsstring) (b : option jsstring) :
  strict_eq a b = false <-> b <> Some a.
Proof.
  rewrite <- strict_eq_true. destruct (strict_eq a b); split; congruence.
Qed.

End CleanFacts.

(** Case analysis on the membership of an event in an explicit trace. *)
Ltac in_cases H :=
  cbn [snd] in H;
  repeat (destruct H as [H|H]; [try discriminate|]); try (now destruct H).

(* ================================================================= *)
(** ** Node's [path.join] on safe relative paths *)

Module PosixFacts.
Import PosixPath.

(** A segment that normalization keeps as it is. *)
Definition plain (seg : jsstring) : Prop :=
  seg <> [] /\ seg <> js "." /\ seg <> js "..".

Lemma isPathSafe_plain (seg : jsstring) : isPathSafe seg = true -> plain seg.
Proof.
  intros H. apply isPathSafe_spec in H. unfold unsafe_segment in H.
  repeat split; intros ->; apply H; auto.
  right. left. now exists [], [].
Qed.

Lemma normalizeSegments_plain (allow : bool) (segs res : list jsstring) :
  Forall plain segs -> normalizeSegments allow res segs = rev res ++ segs.
Proof.
  revert res. induction segs as [|seg segs IH]; intros res H.
  - cbn. now rewrite app_nil_r.
  - apply Forall_cons_iff in H. destruct H as [[H1 [H2 H3]] Hsegs].
    cbn [normalizeSegments].
    apply jsstring_eqb_neq in H1, H2, H3. rewrite H1, H2, H3. cbn [orb].
    rewrite (IH _ Hsegs). cbn [rev]. now rewrite <- app_assoc.
Qed.

(** Normalizing a list of segments, then going on with more. *)
Lemma normalizeSegments_app (allow : bool) (segs : list jsstring) :
  forall res, exists res',
    normalizeSegments allow res segs = rev res' /\
    forall more, normalizeSegments allow res (segs ++ more)
                 = normalizeSegments allow res' more.
Proof.
  induction segs as [|seg segs IH]; intros res.
  - exists res. split; reflexivity.
  - cbn [app normalizeSegments].
    destruct (jsstring_eqb seg [] || jsstring_eqb seg (js ".")); [apply IH|].
    destruct (jsstring_eqb seg (js "..")); [|apply IH].
    destruct res as [|top res]; [apply IH|].
    destruct (jsstring_eqb top (js "..")); apply IH.
Qed.

Lemma normalizeSegments_then_plain (allow : bool) (segs more : list jsstring) :
  Forall plain more ->
  normalizeSegments allow [] (segs ++ more) = normalizeSegments allow [] segs ++ more.
Proof.
  intros H. destruct (normalizeSegments_app allow segs []) as [res' [-> Hmore]].
  rewrite Hmore. now apply normalizeSegments_plain.
Qed.

(** Joining the fields of a string gives the string back. *)
Lemma intercalate_split (s : jsstring) : intercalate (split SEP s) = s.
Proof.
  induction s as [|c s IH]; [reflexivity|]. cbn [split].
  destruct (split SEP s) as [|f fs] eqn:E; [now apply split_not_nil in E|].
  destruct (N.eqb_spec c SEP) as [->|_].
  - change (intercalate ([] :: f :: fs)) with ([] ++ SEP :: intercalate (f :: fs)).
    now rewrite IH.
  - destruct fs as [|g fs].
    + cbn [intercalate] in *. now rewrite IH.
    + change (intercalate ((c :: f) :: g :: fs))
        with ((c :: f) ++ SEP :: intercalate (g :: fs)).
      change (intercalate (f :: g :: fs))
        with (f ++ SEP :: intercalate (g :: fs)) in IH.
      now rewrite <- IH.
Qed.

Lemma intercalate_app (a b : list jsstring) :
  b <> [] ->
  intercalate (a ++ b) =
  match a with
  | [] => intercalate b
  | _ :: _ => intercalate a ++ SEP :: intercalate b
  end.
Proof.
  intros Hb. induction a as [|x a IH]; [reflexivity|].
  destruct a as [|y a].
  - cbn [app intercalate]. destruct b; [congruence | reflexivity].
  - change ((x :: y :: a) ++ b) with (x :: (y :: a) ++ b).
    change (intercalate (x :: (y :: a) ++ b))
      with (x ++ SEP :: intercalate ((y :: a) ++ b)).
    rewrite IH. cbn [intercalate]. now rewrite <- app_assoc.
Qed.

Lemma last_app (a b : jsstring) (d : code_unit) : b <> [] -> last (a ++ b) d = last b d.
Proof.
  intros Hb. induction a as [|x a IH]; [reflexivity|].
  cbn [app]. destruct (a ++ b) as [|y l] eqn:E.
  - destruct a; [cbn in E; congruence | discriminate].
  - change (last (x :: y :: l) d) with (last (y :: l) d). exact IH.
Qed.

Lemma safe_path_last (dir : jsstring) :
  forallb isPathSafe (split (cu "/") dir) = true -> N.eqb (last dir 0%N) SEP = false.
Proof.
  intros H. destruct (safe_path_shape _ H) as [Hne [_ [Hend _]]].
  destruct (exists_last Hne) as [init [c ->]].
  rewrite last_app by discriminate. cbn [last].
  destruct (N.eqb_spec c SEP) as [->|]; [|reflexivity].
  exfalso. exact (Hend init eq_refl).
Qed.

Lemma safe_segments_plain (dir : jsstring) :
  forallb isPathSafe (split (cu "/") dir) = true -> Forall plain (split SEP dir).
Proof.
  intros H. rewrite forallb_forall in H. apply Forall_forall.
  intros seg Hseg. apply isPathSafe_plain. now apply H.
Qed.

Lemma normalize_nonempty (p : jsstring) :
  p <> [] ->
  normalize p =
  match intercalate (normalizeSegments (negb (N.eqb (hd 0%N p) SEP)) [] (split SEP p)) with
  | [] => if N.eqb (hd 0%N p) SEP then js "/"
          else if N.eqb (last p 0%N) SEP then js "./" else js "."
  | c :: body =>
      if N.eqb (hd 0%N p) SEP
      then SEP :: (if N.eqb (last p 0%N) SEP then (c :: body) ++ [SEP] else c :: body)
      else if N.eqb (last p 0%N) SEP then (c :: body) ++ [SEP] else c :: body
  end.
Proof.
  destruct p as [|c p]; [congruence|]. intros _. unfold normalize. cbv zeta. cbn [hd].
  destruct (intercalate (normalizeSegments (negb (N.eqb c SEP)) [] (split SEP (c :: p))));
    reflexivity.
Qed.

Lemma truthy_nonempty (s : jsstring) : s <> [] -> truthy s = true.
Proof. destruct s; [congruence | reflexivity]. Qed.

Lemma safe_path_head (dir : jsstring) :
  forallb isPathSafe (split (cu "/") dir) = true -> N.eqb (hd 0%N dir) SEP = false.
Proof.
  intros H. destruct (safe_path_shape _ H) as [Hne [Hroot _]].
  destruct dir as [|c dir]; [congruence|]. cbn [hd].
  cbn [startsWith js map list_ascii_of_string] in Hroot.
  now rewrite andb_true_r in Hroot.
Qed.

(** [path.join(workspacePath, dir)] for a relative path whose segments are
    safe: the segments of [dir] are appended as they are. *)
Lemma join_safe (workspacePath dir : jsstring) :
  forallb isPathSafe (split (cu "/") dir) = true ->
  join [workspacePath; dir] = root_prefix workspacePath ++ dir.
Proof.
  intros Hsafe.
  destruct (safe_path_shape _ Hsafe) as [Hne _].
  pose proof (safe_segments_plain _ Hsafe) as Hplain.
  pose proof (safe_path_last _ Hsafe) as Hlast.
  pose proof (safe_path_head _ Hsafe) as Hhead.
  assert (Hsplit : split SEP dir <> []) by apply split_not_nil.
  unfold join. destruct workspacePath as [|c ws]; cbn [filter truthy];
    rewrite (truthy_nonempty Hne); cbn [intercalate root_prefix].
  - (* the empty workspace path is dropped by [join] *)
    rewrite (normalize_nonempty Hne), Hhead, Hlast. cbn [negb].
    rewrite (normalizeSegments_plain true [] Hplain). cbn [rev app].
    rewrite intercalate_split. destruct dir; [congruence | reflexivity].
  - rewrite normalize_nonempty by discriminate.
    rewrite (last_app (c :: ws) 0%N (b := SEP :: dir)) by discriminate.
    change (last (SEP :: dir) 0%N)
      with (match dir with [] => SEP | _ :: _ => last dir 0%N end).
    change (hd 0%N ((c :: ws) ++ SEP :: dir)) with c.
    rewrite split_app_sep, (normalizeSegments_then_plain _ _ Hplain).
    rewrite (intercalate_app _ Hsplit), intercalate_split.
    destruct dir as [|d0 dir']; [congruence|]. rewrite Hlast.
    destruct (normalizeSegments (negb (N.eqb c SEP)) [] (split SEP (c :: ws)))
      as [|n ns]; destruct (N.eqb c SEP); cbn [app].
    + reflexivity.
    + reflexivity.
    + destruct (intercalate (n :: ns) ++ SEP :: d0 :: dir') eqn:E.
      * destruct (intercalate (n :: ns)); discriminate.
      * rewrite <- E, <- app_assoc. reflexivity.
    + destruct (intercalate (n :: ns) ++ SEP :: d0 :: dir') eqn:E.
      * destruct (intercalate (n :: ns)); discriminate.
      * rewrite <- E, <- app_assoc. reflexivity.
Qed.

End PosixFacts.

(** What a delete of the clean command is given. *)
Lemma clean_delete_target (wb : Clean.Workbench) (path : jsstring)
      (recursive useTrash : bool) :
  In (Clean.FsDelete path recursive useTrash) (snd (Clean.run_cleanCommand wb)) ->
  exists picked workspacePath,
    Clean.detect_pick wb = inr (Some picked) /\
    Clean.workspaceFolderPath wb = inr workspacePath /\
    path = Clean.join wb [workspacePath; Clean.rawPath picked].
Proof.
  rewrite CleanFacts.cleanCommand_run. unfold CleanOutcome.cleanOutcome.
  destruct (Clean.detect_pick wb) as [e|[picked|]]; try (intros H; now in_cases H).
  destruct (Clean.strict_eq (js "./" ++ Clean.rawPath picked) (Clean.currentVenv wb));
    [intros H; now in_cases H|].
  destruct (Clean.strict_eq (js "Delete")
              (Clean.warning_choice wb (CleanOutcome.confirmText picked)));
    [|intros H; now in_cases H].
  destruct (Clean.workspaceFolderPath wb) as [e|ws]; [intros H; now in_cases H|].
  destruct (Clean.workspace_stat wb (Clean.join wb [ws; Clean.rawPath picked]))
    as [e|[]]; [intros H; now in_cases H|].
  destruct (Clean.workspace_delete wb (Clean.join wb [ws; Clean.rawPath picked]))
    as [e|[]]; intros H; in_cases H; injection H as <- _ _; now exists picked, ws.
Qed.

(* ================================================================= *)
(** * Part III: the properties of the specification *)

(* ================================================================= *)
(** ** C1: a marker file that cannot be read *)

(** C1. When [a/bin/ruyi-activate] is a directory, reading it throws
    [EISDIR]; the throw reaches the top-level handler of [detectVenv], which
    logs an error (no warning), and the candidate [b] after it is never
    evaluated: its record, returned when [a] has no marker file, is
    missing. *)
Theorem marker_read_failure_aborts_scan :
  run_detectVenv Inputs.marker_is_directory =
    (Normal [],
     [ Readdir (js "/ws"); Readdir (js "/ws/a"); Readdir (js "/ws/b");
       ExistsSync (js "/ws/a/bin/ruyi-activate");
       ReadFile (js "/ws/a/bin/ruyi-activate");
       ConsoleError (FailedToDetect Mock.EISDIR) ]) /\
  run_detectVenv Inputs.marker_absent =
    (Normal [(js "b", js "good")],
     [ Readdir (js "/ws"); Readdir (js "/ws/a"); Readdir (js "/ws/b");
       ExistsSync (js "/ws/a/bin/ruyi-activate");
       ExistsSync (js "/ws/b/bin/ruyi-activate");
       ReadFile (js "/ws/b/bin/ruyi-activate");
       ExistsSync (js "/ws/b/bin/bin/ruyi-activate") ]).
Proof.
  split; vm_compute; reflexivity.
Qed.

(* ================================================================= *)
(** ** C2: the label *)

(** C2. On a marker file whose prompt line is [RUYI_VENV_PROMPT=a=b] the
    scan returns the label [a], where the portion of the line after its
    first [=] is [a=b]: [split('=')[1]] drops what follows the second [=].
    The whitespace example holds: [RUYI_VENV_PROMPT=  spaced  ] gives
    [spaced]. *)
Theorem label_is_cut_at_second_eq :
  run_detectVenv Inputs.value_with_eq =
    (Normal [(js "env", js "a")], Inputs.scan_events) /\
  label_after_first_eq (js "RUYI_VENV_PROMPT=a=b") = js "a=b" /\
  js "a" <> js "a=b" /\
  run_detectVenv Inputs.spaced =
    (Normal [(js "env", js "spaced")], Inputs.scan_events).
Proof.
  repeat split; try (vm_compute; reflexivity). discriminate.
Qed.

(* ================================================================= *)
(** ** C3: path safety *)

(** C3. Every record returned by the scan has a relative path all of whose
    [/]-separated segments are safe (not empty, without [..], without a null
    code unit, not [.], not beginning with [/]); a candidate with an unsafe
    segment is never in the result, whatever is under it; evaluating such a
    candidate does not throw, reads nothing and logs one warning that names
    it; and in a scan that logs no error, that warning is in the log of
    every unsafe candidate. *)
Theorem records_have_safe_segments (host : Host) :
  (forall venvs tr relativePath label seg,
      run_detectVenv host = (Normal venvs, tr) ->
      In (relativePath, label) venvs ->
      In seg (split (cu "/") relativePath) ->
      ~ unsafe_segment seg) /\
  (forall venvs tr dir seg,
      run_detectVenv host = (Normal venvs, tr) ->
      In seg (split (cu "/") dir) -> unsafe_segment seg ->
      ~ In dir (map fst venvs)) /\
  (forall workspacePath dir seg w,
      In seg (split (cu "/") dir) -> unsafe_segment seg ->
      checkDir host workspacePath dir w =
      (Normal tt, extend w [] [ConsoleWarn (SkippingUnsafe dir)])) /\
  (forall workspacePath entries venvs tr dir seg,
      getWorkspaceFolderPath host = inr workspacePath ->
      fs_readdir host workspacePath = inr entries ->
      run_detectVenv host = (Normal venvs, tr) ->
      (forall e, ~ In (ConsoleError (FailedToDetect e)) tr) ->
      In dir (candidates host workspacePath entries) ->
      In seg (split (cu "/") dir) -> unsafe_segment seg ->
      In (ConsoleWarn (SkippingUnsafe dir)) tr).
Proof.
  assert (safe : forall venvs tr relativePath label,
             run_detectVenv host = (Normal venvs, tr) ->
             In (relativePath, label) venvs ->
             forallb isPathSafe (split (cu "/") relativePath) = true).
  { intros venvs tr relativePath label Hrun Hin.
    destruct (scan_record_origin _ _ Hrun Hin) as [ws [entries [_ [_ [_ H]]]]].
    apply venvsOf_In in H. tauto. }
  repeat split.
  - intros venvs tr relativePath label seg Hrun Hin Hseg.
    apply isPathSafe_spec.
    pose proof (safe _ _ _ _ Hrun Hin) as H. rewrite forallb_forall in H. auto.
  - intros venvs tr dir seg Hrun Hseg Hbad Hin.
    apply in_map_iff in Hin. destruct Hin as [[p label] [Hp Hin]]. simpl in Hp. subst p.
    pose proof (safe _ _ _ _ Hrun Hin) as H.
    rewrite (has_unsafe_segment _ Hseg Hbad) in H. discriminate.
  - intros workspacePath dir seg w Hseg Hbad.
    rewrite checkDir_run. unfold dirOutcome.
    now rewrite (has_unsafe_segment _ Hseg Hbad).
  - intros workspacePath entries venvs tr dir seg Hws Hroot Hrun Hquiet Hdir Hseg Hbad.
    destruct (scan_without_error _ Hws Hroot Hrun Hquiet) as [_ ->].
    right. apply in_or_app. right. apply in_flat_map. exists dir. split; [exact Hdir|].
    unfold eventsOf, dirOutcome. rewrite (has_unsafe_segment _ Hseg Hbad). now left.
Qed.

Lemma records_have_safe_segments_witness :
  ~ In (js "a..b") (map fst [(js "ok", js "fine")]) /\
  In (ConsoleWarn (SkippingUnsafe (js "a..b")))
     (snd (run_detectVenv Inputs.unsafe_name)).
Proof.
  destruct (records_have_safe_segments Inputs.unsafe_name) as [_ [H2 [_ H4]]].
  assert (bad : unsafe_segment (js "a..b")).
  { right. left. exists (js "a"), (js "b"). reflexivity. }
  split.
  - eapply (H2 _ _ (js "a..b") (js "a..b")).
    + vm_compute. reflexivity.
    + vm_compute. tauto.
    + exact bad.
  - eapply (H4 (js "/ws") _ _ _ (js "a..b") (js "a..b")).
    + reflexivity.
    + reflexivity.
    + vm_compute. reflexivity.
    + intros e H. vm_compute in H.
      repeat (destruct H as [H|H]; [discriminate|]). exact H.
    + vm_compute. tauto.
    + vm_compute. tauto.
    + exact bad.
Defined.

(* ================================================================= *)
(** ** C4: depth of the traversal *)

(** C4. The traversal is bounded at depth 2 and considers exactly the
    directory entries of the first two levels.  Every relative path of the
    result is the name of an entry of the root that is a directory, or
    [<depth1>/<depth2>] for such an entry [depth1] and an entry [depth2] of
    the listing of [depth1] that is a directory.  The directories listed are
    the root and, each of them, the entries of the root that are
    directories, and no other.  Every marker file probed is the one of such
    a path at depth 1 or 2, and in a scan that logs no error the marker file
    of every such path with safe segments is probed.  Entry names having no
    separator in them, every relative path of the result has at most two
    components. *)
Theorem scan_depth_at_most_two (host : Host) (venvs : list venv) (tr : list event) :
  run_detectVenv host = (Normal venvs, tr) ->
  (forall relativePath label,
      In (relativePath, label) venvs ->
      exists workspacePath entries,
        getWorkspaceFolderPath host = inr workspacePath /\
        fs_readdir host workspacePath = inr entries /\
        within_depth_two host workspacePath entries relativePath) /\
  (forall p,
      In (Readdir p) tr ->
      exists workspacePath,
        getWorkspaceFolderPath host = inr workspacePath /\
        (p = workspacePath \/
         exists entries depth1,
           fs_readdir host workspacePath = inr entries /\
           directory_entry entries depth1 /\
           p = path_join host [workspacePath; depth1])) /\
  (forall workspacePath entries depth1,
      getWorkspaceFolderPath host = inr workspacePath ->
      fs_readdir host workspacePath = inr entries ->
      directory_entry entries depth1 ->
      In (Readdir (path_join host [workspacePath; depth1])) tr) /\
  (forall p,
      In (ExistsSync p) tr ->
      exists workspacePath entries dir,
        getWorkspaceFolderPath host = inr workspacePath /\
        fs_readdir host workspacePath = inr entries /\
        within_depth_two host workspacePath entries dir /\
        p = activatePathOf host workspacePath dir) /\
  (forall workspacePath entries dir,
      getWorkspaceFolderPath host = inr workspacePath ->
      fs_readdir host workspacePath = inr entries ->
      (forall e, ~ In (ConsoleError (FailedToDetect e)) tr) ->
      within_depth_two host workspacePath entries dir ->
      forallb isPathSafe (split (cu "/") dir) = true ->
      In (ExistsSync (activatePathOf host workspacePath dir)) tr) /\
  (names_without_separator host ->
   forall relativePath label,
     In (relativePath, label) venvs ->
     List.length (split (cu "/") relativePath) <= 2).
Proof.
  intros Hrun.
  assert (origin : forall relativePath label,
             In (relativePath, label) venvs ->
             exists workspacePath entries,
               getWorkspaceFolderPath host = inr workspacePath /\
               fs_readdir host workspacePath = inr entries /\
               within_depth_two host workspacePath entries relativePath).
  { intros relativePath label Hin.
    destruct (scan_record_origin _ _ Hrun Hin) as [ws [entries [Hws [Hroot [Hc _]]]]].
    exists ws, entries. repeat split; try assumption.
    now apply candidates_within_depth_two in Hc. }
  split; [exact origin|].
  destruct (getWorkspaceFolderPath host) as [e|ws] eqn:Hws.
  { rewrite (run_workspace_failure _ Hws) in Hrun. injection Hrun as <- <-.
    split; [|split; [|split; [|split]]].
    - intros p [H|[]]. discriminate.
    - intros ws entries depth1 H. discriminate.
    - intros p [H|[]]. discriminate.
    - intros ws entries dir H. discriminate.
    - intros _ relativePath label []. }
  destruct (fs_readdir host ws) as [e|entries] eqn:Hroot.
  { rewrite (run_root_failure _ Hws Hroot) in Hrun. injection Hrun as <- <-.
    split; [|split; [|split; [|split]]].
    - intros p [H|[H|[]]]; [|discriminate]. injection H as <-.
      exists ws. auto.
    - intros ws' entries depth1 H1 H2. injection H1 as <-. congruence.
    - intros p [H|[H|[]]]; discriminate.
    - intros ws' entries dir H1 H2. injection H1 as <-. congruence.
    - intros _ relativePath label []. }
  pose proof (fun quiet => scan_without_error host Hws Hroot Hrun quiet) as Hfull.
  pose proof Hrun as Hrun'. rewrite (run_scan _ Hws Hroot) in Hrun'.
  pose proof (@loopOutcome_events_In host ws (candidates host ws entries)) as Hevs.
  destruct (loopOutcome host ws (candidates host ws entries)) as [[c venvs'] evs].
  simpl in Hevs. injection Hrun' as _ <-.
  split; [|split; [|split; [|split]]].
  - intros p [H|H].
    + injection H as <-. exists ws. auto.
    + exists ws. split; [reflexivity | right].
      apply in_app_or in H. destruct H as [H|H].
      * apply subdirEvents_Readdir in H. destruct H as [depth1 [H1 ->]].
        exists entries, depth1. split; [exact Hroot|]. split; [|reflexivity].
        now apply directory_entry_names.
      * exfalso. apply in_app_or in H. destruct H as [H|H].
        -- destruct (Hevs _ H) as [dir [_ Hev]]. apply eventsOf_In in Hev.
           intuition discriminate.
        -- destruct c; simpl in H; intuition discriminate.
  - intros ws' entries' depth1 Hws' Hroot' Hdepth1.
    injection Hws' as <-. rewrite Hroot in Hroot'. injection Hroot' as <-.
    right. apply in_or_app. left. apply subdirEvents_listed.
    now apply directory_entry_names.
  - intros p [H|H]; [discriminate|].
    apply in_app_or in H. destruct H as [H|H].
    + exfalso. apply in_flat_map in H. destruct H as [d [_ H]].
      unfold subdirEvents in H. destruct H as [H|H]; [discriminate|].
      destruct (fs_readdir host (path_join host [ws; d])); simpl in H;
        intuition discriminate.
    + apply in_app_or in H. destruct H as [H|H].
      * destruct (Hevs _ H) as [dir [Hdir Hev]]. apply eventsOf_In in Hev.
        exists ws, entries, dir. repeat split; try assumption.
        -- now apply candidates_within_depth_two.
        -- destruct Hev as [Hev|[Hev|Hev]]; try discriminate. now injection Hev.
      * exfalso. destruct c; simpl in H; intuition discriminate.
  - intros ws' entries' dir Hws' Hroot' Hquiet Hdir Hsafe.
    injection Hws' as <-. rewrite Hroot in Hroot'. injection Hroot' as <-.
    apply candidates_within_depth_two in Hdir.
    destruct (Hfull Hquiet) as [_ ->].
    right. apply in_or_app. right. apply in_flat_map. exists dir.
    split; [exact Hdir|]. unfold eventsOf, dirOutcome. rewrite Hsafe.
    destruct (fs_exists host (activatePathOf host ws dir)); [|now left].
    destruct (fs_readFile host (activatePathOf host ws dir)); now left.
  - intros Hnames relativePath label Hin.
    destruct (origin _ _ Hin) as [ws' [entries' [Hws' [Hroot' Hshape]]]].
    injection Hws' as <-. rewrite Hroot in Hroot'. injection Hroot' as <-.
    destruct Hshape as [H|[depth1 [entries1 [depth2 [H1 [Hsub [H2 ->]]]]]]].
    + destruct H as [entry [Hentry [_ <-]]].
      rewrite split_one_name; [lia|]. exact (Hnames _ _ _ Hroot Hentry).
    + destruct H1 as [entry1 [Hentry1 [_ <-]]].
      destruct H2 as [entry2 [Hentry2 [_ <-]]].
      rewrite split_two_names; [lia | |].
      * exact (Hnames _ _ _ Hroot Hentry1).
      * exact (Hnames _ _ _ Hsub Hentry2).
Qed.

Lemma scan_depth_at_most_two_witness :
  names_without_separator Inputs.symlinked_env /\
  run_detectVenv Inputs.symlinked_env =
    (Normal [(js "real", js "real")], snd (run_detectVenv Inputs.symlinked_env)) /\
  (forall relativePath label,
      In (relativePath, label) [(js "real", js "real")] ->
      exists workspacePath entries,
        getWorkspaceFolderPath Inputs.symlinked_env = inr workspacePath /\
        fs_readdir Inputs.symlinked_env workspacePath = inr entries /\
        within_depth_two Inputs.symlinked_env workspacePath entries relativePath) /\
  (forall relativePath label,
      In (relativePath, label) [(js "real", js "real")] ->
      List.length (split (cu "/") relativePath) <= 2).
Proof.
  assert (Hnames : names_without_separator Inputs.symlinked_env).
  { apply MockFacts.host_of_names. vm_compute. reflexivity. }
  assert (Hrun : run_detectVenv Inputs.symlinked_env =
                 (Normal [(js "real", js "real")],
                  snd (run_detectVenv Inputs.symlinked_env))).
  { vm_compute. reflexivity. }
  destruct (@scan_depth_at_most_two Inputs.symlinked_env [(js "real", js "real")]
              (snd (run_detectVenv Inputs.symlinked_env)) Hrun)
    as [H1 [_ [_ [_ [_ H6]]]]].
  split; [exact Hnames|]. split; [exact Hrun|]. split; [exact H1|]. exact (H6 Hnames).
Defined.

(* ================================================================= *)
(** ** C5: the marker file *)

(** C5. For a candidate that passes path validation: when its marker file
    exists and has a line with [RUYI_VENV_PROMPT=], exactly one record
    [(candidate, label)] is pushed (content [RUYI_VENV_PROMPT=myenv] and a
    newline gives the label [myenv]); when the marker file exists and has no
    such line, nothing is pushed; when the marker file does not exist,
    nothing is pushed and nothing is logged.  In a scan whose existing marker
    files can all be read, the result is made of these records, candidate by
    candidate. *)
Theorem marker_file_decides_record (host : Host) (workspacePath dir : jsstring)
        (w : world) :
  forallb isPathSafe (split (cu "/") dir) = true ->
  (forall content,
      fs_exists host (activatePathOf host workspacePath dir) = true ->
      fs_readFile host (activatePathOf host workspacePath dir) = inr content ->
      (exists line, In line (split (cu "010") content) /\
                    includes line (js "RUYI_VENV_PROMPT=") = true) ->
      exists line,
        promptLineOf content = Some line /\
        checkDir host workspacePath dir w =
        (Normal tt,
         extend w [(dir, labelOf line)]
                [ExistsSync (activatePathOf host workspacePath dir);
                 ReadFile (activatePathOf host workspacePath dir)])) /\
  (fs_exists host (activatePathOf host workspacePath dir) = true ->
   fs_readFile host (activatePathOf host workspacePath dir) =
     inr (js "RUYI_VENV_PROMPT=myenv" ++ LF) ->
   checkDir host workspacePath dir w =
   (Normal tt,
    extend w [(dir, js "myenv")]
           [ExistsSync (activatePathOf host workspacePath dir);
            ReadFile (activatePathOf host workspacePath dir)])) /\
  (forall content,
      fs_exists host (activatePathOf host workspacePath dir) = true ->
      fs_readFile host (activatePathOf host workspacePath dir) = inr content ->
      (forall line, In line (split (cu "010") content) ->
                    includes line (js "RUYI_VENV_PROMPT=") = false) ->
      checkDir host workspacePath dir w =
      (Normal tt,
       extend w []
              [ExistsSync (activatePathOf host workspacePath dir);
               ReadFile (activatePathOf host workspacePath dir)])) /\
  (fs_exists host (activatePathOf host workspacePath dir) = false ->
   checkDir host workspacePath dir w =
   (Normal tt, extend w [] [ExistsSync (activatePathOf host workspacePath dir)])) /\
  (forall entries,
      getWorkspaceFolderPath host = inr workspacePath ->
      fs_readdir host workspacePath = inr entries ->
      markersReadable host workspacePath (candidates host workspacePath entries) = true ->
      fst (run_detectVenv host) =
      Normal (flat_map (venvsOf host workspacePath)
                       (candidates host workspacePath entries))).
Proof.
  intros Hsafe.
  assert (with_content : forall content,
             fs_exists host (activatePathOf host workspacePath dir) = true ->
             fs_readFile host (activatePathOf host workspacePath dir) = inr content ->
             checkDir host workspacePath dir w =
             (Normal tt,
              extend w match promptLineOf content with
                       | Some line => [(dir, labelOf line)]
                       | None => []
                       end
                     [ExistsSync (activatePathOf host workspacePath dir);
                      ReadFile (activatePathOf host workspacePath dir)])).
  { intros content Hex Hread. rewrite checkDir_run. unfold dirOutcome.
    now rewrite Hsafe, Hex, Hread. }
  repeat split.
  - intros content Hex Hread Hline.
    destruct (promptLineOf_some _ Hline) as [line E]. exists line.
    split; [exact E|]. rewrite (with_content _ Hex Hread), E. reflexivity.
  - intros Hex Hread. rewrite (with_content _ Hex Hread). reflexivity.
  - intros content Hex Hread Hnone.
    rewrite (with_content _ Hex Hread), (promptLineOf_none _ Hnone). reflexivity.
  - intros Hex. rewrite checkDir_run. unfold dirOutcome. now rewrite Hsafe, Hex.
  - intros entries Hws Hroot Hread. now rewrite (scan_complete _ Hws Hroot Hread).
Qed.

Lemma marker_file_decides_record_witness :
  checkDir Inputs.three_dirs (js "/ws") (js "env") empty_world =
  (Normal tt,
   {| foundVenvs := [(js "env", js "myenv")];
      trace := [ExistsSync (js "/ws/env/bin/ruyi-activate");
                ReadFile (js "/ws/env/bin/ruyi-activate")] |}) /\
  fst (run_detectVenv Inputs.three_dirs) = Normal [(js "env", js "myenv")].
Proof.
  destruct (@marker_file_decides_record Inputs.three_dirs (js "/ws") (js "env")
              empty_world eq_refl) as [_ [H2 [_ [_ H5]]]].
  split.
  - apply H2; reflexivity.
  - apply (H5 [Mock.dir "env"; Mock.dir "plain"; Mock.dir "other"]); reflexivity.
Defined.

(* ================================================================= *)
(** ** C6: a depth-1 directory that cannot be listed *)

(** C6. When the depth-1 directory [locked] cannot be listed, the failure
    is caught in the traversal and one warning is logged for it; but when
    its marker file also exists and cannot be read, the read throws in the
    loop, the scan stops there with an error, and the record of the sibling
    [valid], which is returned when [locked] has no marker file, is
    missing. *)
Theorem unreadable_marker_hides_sibling_of_locked_directory :
  run_detectVenv Inputs.locked_with_unreadable_marker =
    (Normal [],
     [ Readdir (js "/ws");
       Readdir (js "/ws/locked");
       ConsoleWarn (FailedToRead (js "locked") Mock.EACCES);
       Readdir (js "/ws/valid");
       ExistsSync (js "/ws/locked/bin/ruyi-activate");
       ReadFile (js "/ws/locked/bin/ruyi-activate");
       ConsoleError (FailedToDetect Mock.EACCES) ]) /\
  run_detectVenv Inputs.locked_without_marker =
    (Normal [(js "valid", js "ok")],
     [ Readdir (js "/ws");
       Readdir (js "/ws/locked");
       ConsoleWarn (FailedToRead (js "locked") Mock.EACCES);
       Readdir (js "/ws/valid");
       ExistsSync (js "/ws/locked/bin/ruyi-activate");
       ExistsSync (js "/ws/valid/bin/ruyi-activate");
       ReadFile (js "/ws/valid/bin/ruyi-activate");
       ExistsSync (js "/ws/valid/bin/bin/ruyi-activate") ]).
Proof.
  split; vm_compute; reflexivity.
Qed.

(* ================================================================= *)
(** ** C7: the scan never throws *)

(** C7. [detectVenv] never raises to its caller: from every state and for
    every behaviour of the host the call completes normally with a list;
    and when listing the root directory fails, one error is logged and the
    list is empty. *)
Theorem detectVenv_never_throws (host : Host) :
  (forall w, exists venvs w', detectVenv host w = (Normal venvs, w')) /\
  (exists venvs tr, run_detectVenv host = (Normal venvs, tr)) /\
  (forall workspacePath e,
      getWorkspaceFolderPath host = inr workspacePath ->
      fs_readdir host workspacePath = inl e ->
      run_detectVenv host =
      (Normal [], [Readdir workspacePath; ConsoleError (FailedToDetect e)])).
Proof.
  assert (total : forall w, exists venvs w', detectVenv host w = (Normal venvs, w')).
  { intros w. unfold detectVenv. unfold bind at 1. unfold try_catch.
    match goal with |- context [match ?body w with _ => _ end] =>
      destruct (body w) as [[[]|e] w1] end.
    - eauto.
    - unfold console_error, emit. eauto. }
  split; [exact total|]. split.
  - unfold run_detectVenv. destruct (total empty_world) as [venvs [w' ->]]. eauto.
  - intros workspacePath e. apply run_root_failure.
Qed.

Lemma detectVenv_never_throws_witness :
  run_detectVenv Inputs.unreadable_root =
  (Normal [], [Readdir Inputs.WS; ConsoleError (FailedToDetect Mock.EACCES)]).
Proof.
  destruct (detectVenv_never_throws Inputs.unreadable_root) as [_ [_ H]].
  apply H; reflexivity.
Defined.

(* ================================================================= *)
(** ** C8: the deletion guard *)

(** C8. The handler compares [./<rawPath>] of the picked item with
    [currentVenv].  When they are equal it shows the error message and
    returns: this message and the call of the picker are all it does, so the
    recursive delete is not invoked and nothing the scanner returned is
    touched.  Conversely, whenever a delete is invoked, the picked path was
    not the active one and the user chose [Delete]. *)
Theorem active_venv_is_never_deleted (wb : Clean.Workbench) :
  (forall picked,
      Clean.detect_pick wb = inr (Some picked) ->
      Clean.currentVenv wb = Some (js "./" ++ Clean.rawPath picked) ->
      Clean.run_cleanCommand wb =
      (Normal tt,
       [ Clean.ExecuteCommand (js "ruyi.venv.detect") (js "clean");
         Clean.ShowErrorMessage
           (js "Cannot delete the currently active Ruyi venv. Please deactivate it first.") ])
      /\ filter Clean.isDelete (snd (Clean.run_cleanCommand wb)) = []) /\
  (forall path recursive useTrash,
      In (Clean.FsDelete path recursive useTrash) (snd (Clean.run_cleanCommand wb)) ->
      exists picked,
        Clean.detect_pick wb = inr (Some picked) /\
        Clean.currentVenv wb <> Some (js "./" ++ Clean.rawPath picked) /\
        Clean.warning_choice wb
          (js "Are you sure you want to delete the Ruyi venv at "
           ++ (js "./" ++ Clean.rawPath picked)
           ++ js "? This action cannot be undone.") = Some (js "Delete")).
Proof.
  split.
  - intros picked Hpick Hactive.
    assert (Hrun : Clean.run_cleanCommand wb =
                   (Normal tt,
                    [ Clean.ExecuteCommand (js "ruyi.venv.detect") (js "clean");
                      Clean.ShowErrorMessage
                        (js "Cannot delete the currently active Ruyi venv. Please deactivate it first.") ])).
    { unfold Clean.run_cleanCommand, Clean.cleanCommand, Clean.executeCommand, bind.
      cbn [Clean.tell]. rewrite Hpick. cbn [of_result ret].
      rewrite Hactive. cbn [Clean.strict_eq]. rewrite jsstring_eqb_refl.
      reflexivity. }
    rewrite Hrun. split; reflexivity.
  - intros path recursive useTrash.
    unfold Clean.run_cleanCommand, Clean.cleanCommand, Clean.executeCommand, bind.
    cbn [Clean.tell].
    destruct (Clean.detect_pick wb) as [e|[picked|]]; cbn [of_result ret throw snd];
      try (intros [H|[]]; discriminate).
    destruct (Clean.strict_eq (js "./" ++ Clean.rawPath picked) (Clean.currentVenv wb))
      eqn:Hguard.
    { cbn. intros [H|[H|[]]]; discriminate. }
    unfold Clean.showWarningMessage, bind. cbn [Clean.tell ret].
    destruct (Clean.warning_choice wb _) as [choice|] eqn:Hchoice;
      [|cbn; intros [H|[H|[]]]; discriminate].
    cbn [Clean.strict_eq].
    destruct (jsstring_eqb (js "Delete") choice) eqn:Hdelete;
      [|cbn; intros [H|[H|[]]]; discriminate].
    intros _. exists picked. split; [reflexivity|]. split.
    + intros Hactive. rewrite Hactive in Hguard. cbn [Clean.strict_eq] in Hguard.
      rewrite jsstring_eqb_refl in Hguard. discriminate.
    + apply jsstring_eqb_eq in Hdelete. now subst choice.
Qed.

Lemma active_venv_is_never_deleted_witness :
  Clean.run_cleanCommand CleanInputs.active_picked =
  (Normal tt,
   [ Clean.ExecuteCommand (js "ruyi.venv.detect") (js "clean");
     Clean.ShowErrorMessage
       (js "Cannot delete the currently active Ruyi venv. Please deactivate it first.") ])
  /\ filter Clean.isDelete (snd (Clean.run_cleanCommand CleanInputs.active_picked)) = [].
Proof.
  apply (proj1 (active_venv_is_never_deleted CleanInputs.active_picked) CleanInputs.picked_env);
    reflexivity.
Defined.

(* ================================================================= *)
(** ** C9: the workspace resolver throws *)

(** C9. When the workspace resolver throws, [detectVenv] catches it in its
    top-level handler: one error is logged, nothing is read from the file
    system, and the caller gets the empty list. *)
Theorem detectVenv_workspace_resolver_throws (host : Host) (e : exn) :
  getWorkspaceFolderPath host = inl e ->
  run_detectVenv host = (Normal [], [ConsoleError (FailedToDetect e)]).
Proof. apply run_workspace_failure. Qed.

Lemma detectVenv_workspace_resolver_throws_witness :
  run_detectVenv Inputs.no_workspace =
  (Normal [],
   [ConsoleError
      (FailedToDetect (ErrorObject (js "Error") (js "No workspace folder is open")))]).
Proof.
  apply (detectVenv_workspace_resolver_throws Inputs.no_workspace). reflexivity.
Defined.

(* ================================================================= *)
(** ** C10: an empty prompt value *)

(** C10. When the first line of the marker file that has
    [RUYI_VENV_PROMPT=] has nothing between its first [=] and the next one
    (or the end of the line), [detectVenv] still pushes a record for the
    candidate, and its label is the empty string; that record is in the
    result of the scan when no candidate evaluated before this one has a
    marker file that exists and cannot be read. *)
Theorem empty_value_gives_empty_label (host : Host) (workspacePath dir : jsstring)
        (content line : jsstring) :
  forallb isPathSafe (split (cu "/") dir) = true ->
  fs_exists host (activatePathOf host workspacePath dir) = true ->
  fs_readFile host (activatePathOf host workspacePath dir) = inr content ->
  first_prompt_line content line ->
  (exists before after,
      line = before ++ cu "=" :: after /\
      ~ In (cu "=") before /\
      (after = [] \/ exists rest, after = cu "=" :: rest)) ->
  (forall w,
      checkDir host workspacePath dir w =
      (Normal tt,
       extend w [(dir, [])]
              [ExistsSync (activatePathOf host workspacePath dir);
               ReadFile (activatePathOf host workspacePath dir)])) /\
  (forall entries earlier later,
      getWorkspaceFolderPath host = inr workspacePath ->
      fs_readdir host workspacePath = inr entries ->
      candidates host workspacePath entries = earlier ++ dir :: later ->
      markersReadable host workspacePath earlier = true ->
      exists venvs tr, run_detectVenv host = (Normal venvs, tr) /\ In (dir, []) venvs).
Proof.
  intros Hsafe Hex Hread Hfirst [before [after [-> [Hbefore Hafter]]]].
  assert (Hlabel : labelOf (before ++ cu "=" :: after) = []).
  { unfold labelOf. rewrite split_at_first by assumption.
    destruct Hafter as [->|[rest ->]]; cbn [split nth].
    - reflexivity.
    - rewrite N.eqb_refl. reflexivity. }
  split.
  - intros w. rewrite checkDir_run. unfold dirOutcome.
    now rewrite Hsafe, Hex, Hread, (promptLineOf_first Hfirst), Hlabel.
  - intros entries earlier later Hws Hroot Hsplit Hearlier.
    apply (@scan_reaches host workspacePath entries earlier later dir (dir, []) Hws Hroot
             Hsplit Hearlier).
    rewrite (venvsOf_prompt _ _ _ Hsafe Hex Hread Hfirst), Hlabel. now left.
Qed.

Lemma empty_value_gives_empty_label_witness :
  checkDir Inputs.empty_value (js "/ws") (js "env") empty_world =
    (Normal tt,
     {| foundVenvs := [(js "env", [])];
        trace := [ExistsSync (js "/ws/env/bin/ruyi-activate");
                  ReadFile (js "/ws/env/bin/ruyi-activate")] |}) /\
  exists venvs tr,
    run_detectVenv Inputs.empty_value = (Normal venvs, tr) /\
    In (js "env", []) venvs.
Proof.
  destruct (@empty_value_gives_empty_label Inputs.empty_value (js "/ws") (js "env")
              (js "RUYI_VENV_PROMPT=") (js "RUYI_VENV_PROMPT=")) as [H1 H2].
  - reflexivity.
  - reflexivity.
  - reflexivity.
  - exists [], []. repeat split.
    intros l [].
  - exists (js "RUYI_VENV_PROMPT"), []. repeat split.
    + vm_compute. intuition discriminate.
    + now left.
  - split.
    + apply H1.
    + apply (H2 [Mock.dir "env"] [] [js "env/bin"]); reflexivity.
Defined.

(* ================================================================= *)
(** * Part IV: further properties of the code *)

(* ================================================================= *)
(** ** The scan as a whole *)

(** X1. Once the root is listed, the result of [detectVenv] is made of the
    records of a prefix of the candidates, in their order.  Either no error
    is logged and the prefix is all the candidates; or the loop stopped at
    the first candidate whose marker file exists and cannot be read, the
    records found before it are returned, and the error of that read is the
    last thing logged. *)
Theorem scan_stops_at_first_unreadable_marker (host : Host)
        (workspacePath : jsstring) (entries : list Dirent)
        (venvs : list venv) (tr : list event) :
  getWorkspaceFolderPath host = inr workspacePath ->
  fs_readdir host workspacePath = inr entries ->
  run_detectVenv host = (Normal venvs, tr) ->
  exists evaluated rest,
    candidates host workspacePath entries = evaluated ++ rest /\
    markersReadable host workspacePath evaluated = true /\
    venvs = flat_map (venvsOf host workspacePath) evaluated /\
    ((rest = [] /\ forall m, ~ In (ConsoleError m) tr)
     \/
     (exists dir rest' e tr',
         rest = dir :: rest' /\
         markerUnreadable host workspacePath dir e /\
         tr = tr' ++ [ConsoleError (FailedToDetect e)] /\
         forall m, ~ In (ConsoleError m) tr')).
Proof.
  intros Hws Hroot Hrun.
  destruct (scan_shape host Hws Hroot)
    as [evaluated [rest [Hsplit [Hread [[-> Hshape]|[dir [rest' [e [-> [Hbad Hshape]]]]]]]]]];
    rewrite Hshape in Hrun; injection Hrun as <- <-;
    exists evaluated; eexists; (split; [exact Hsplit|]);
    (split; [exact Hread|]); (split; [reflexivity|]).
  - left. split; [reflexivity|]. apply count_zero_no_error.
    rewrite <- (app_nil_r (flat_map (eventsOf host workspacePath) evaluated)).
    now apply scan_body_quiet.
  - right. exists dir, rest', e.
    exists (Readdir workspacePath ::
            flat_map (subdirEvents host workspacePath) (directoryNames entries) ++
            flat_map (eventsOf host workspacePath) evaluated ++
            [ExistsSync (activatePathOf host workspacePath dir);
             ReadFile (activatePathOf host workspacePath dir)]).
    split; [reflexivity|]. split; [exact Hbad|]. split.
    + cbn [app]. f_equal. rewrite <- !app_assoc. reflexivity.
    + apply count_zero_no_error. now apply scan_body_quiet.
Qed.

Lemma scan_stops_at_first_unreadable_marker_witness :
  exists evaluated rest,
    candidates Inputs.marker_is_directory (js "/ws") [Mock.dir "a"; Mock.dir "b"]
      = evaluated ++ rest /\
    markersReadable Inputs.marker_is_directory (js "/ws") evaluated = true /\
    [] = flat_map (venvsOf Inputs.marker_is_directory (js "/ws")) evaluated /\
    ((rest = [] /\
      forall m, ~ In (ConsoleError m) (snd (run_detectVenv Inputs.marker_is_directory)))
     \/
     (exists dir rest' e tr',
         rest = dir :: rest' /\
         markerUnreadable Inputs.marker_is_directory (js "/ws") dir e /\
         snd (run_detectVenv Inputs.marker_is_directory)
           = tr' ++ [ConsoleError (FailedToDetect e)] /\
         forall m, ~ In (ConsoleError m) tr')).
Proof.
  apply (@scan_stops_at_first_unreadable_marker Inputs.marker_is_directory (js "/ws")
           [Mock.dir "a"; Mock.dir "b"] []
           (snd (run_detectVenv Inputs.marker_is_directory)));
    vm_compute; reflexivity.
Defined.

(** X2. [detectVenv] logs at most one error, and an error is the last event
    of the scan: nothing is listed, probed, read or logged after it. *)
Theorem error_is_logged_once_and_last (host : Host) (venvs : list venv)
        (tr : list event) :
  run_detectVenv host = (Normal venvs, tr) ->
  count isConsoleError tr <= 1 /\
  forall m,
    In (ConsoleError m) tr ->
    exists tr' e,
      m = FailedToDetect e /\
      tr = tr' ++ [ConsoleError m] /\
      count isConsoleError tr' = 0.
Proof.
  intros Hrun.
  assert (last_only : forall tr' e,
             count isConsoleError tr' = 0 ->
             tr = tr' ++ [ConsoleError (FailedToDetect e)] ->
             count isConsoleError tr <= 1 /\
             forall m, In (ConsoleError m) tr ->
                       exists tr'' e', m = FailedToDetect e' /\
                                       tr = tr'' ++ [ConsoleError m] /\
                                       count isConsoleError tr'' = 0).
  { intros tr' e Hquiet ->. split.
    - rewrite count_app, Hquiet. cbn. lia.
    - intros m Hin. apply in_app_or in Hin. destruct Hin as [Hin|[Hin|[]]].
      + exfalso. exact (@count_zero_no_error _ Hquiet _ Hin).
      + injection Hin as <-. now exists tr', e. }
  destruct (getWorkspaceFolderPath host) as [e|ws] eqn:Hws.
  { rewrite (run_workspace_failure _ Hws) in Hrun. injection Hrun as _ <-.
    apply (last_only [] e); reflexivity. }
  destruct (fs_readdir host ws) as [e|entries] eqn:Hroot.
  { rewrite (run_root_failure _ Hws Hroot) in Hrun. injection Hrun as _ <-.
    apply (last_only [Readdir ws] e); reflexivity. }
  destruct (scan_shape host Hws Hroot)
    as [evaluated [rest [_ [_ [[_ Hshape]|[dir [rest' [e [_ [_ Hshape]]]]]]]]]];
    rewrite Hshape in Hrun; injection Hrun as _ <-.
  - assert (Hquiet : count isConsoleError
                       (Readdir ws ::
                        flat_map (subdirEvents host ws) (directoryNames entries) ++
                        flat_map (eventsOf host ws) evaluated ++ []) = 0)
      by now apply scan_body_quiet.
    rewrite app_nil_r in Hquiet. split; [lia|].
    intros m Hin. exfalso. exact (@count_zero_no_error _ Hquiet _ Hin).
  - apply (last_only
             (Readdir ws ::
              flat_map (subdirEvents host ws) (directoryNames entries) ++
              flat_map (eventsOf host ws) evaluated ++
              [ExistsSync (activatePathOf host ws dir);
               ReadFile (activatePathOf host ws dir)]) e).
    + now apply scan_body_quiet.
    + cbn [app]. f_equal. rewrite <- !app_assoc. reflexivity.
Qed.

Lemma error_is_logged_once_and_last_witness :
  count isConsoleError (snd (run_detectVenv Inputs.unreadable_root)) <= 1 /\
  forall m,
    In (ConsoleError m) (snd (run_detectVenv Inputs.unreadable_root)) ->
    exists tr' e,
      m = FailedToDetect e /\
      snd (run_detectVenv Inputs.unreadable_root) = tr' ++ [ConsoleError m] /\
      count isConsoleError tr' = 0.
Proof.
  apply (@error_is_logged_once_and_last Inputs.unreadable_root []
           (snd (run_detectVenv Inputs.unreadable_root))).
  vm_compute. reflexivity.
Defined.

(** X3. [detectVenv] touches the marker files of safe candidates only: every
    path given to [existsSync] is the marker path of a candidate all of
    whose segments passed [isPathSafe], and every path given to
    [readFileSync] is, moreover, one for which [existsSync] answered
    [true]. *)
Theorem file_access_only_for_safe_candidates (host : Host) (venvs : list venv)
        (tr : list event) :
  run_detectVenv host = (Normal venvs, tr) ->
  (forall p,
      In (ExistsSync p) tr ->
      exists workspacePath entries dir,
        getWorkspaceFolderPath host = inr workspacePath /\
        fs_readdir host workspacePath = inr entries /\
        In dir (candidates host workspacePath entries) /\
        forallb isPathSafe (split (cu "/") dir) = true /\
        p = activatePathOf host workspacePath dir) /\
  (forall p,
      In (ReadFile p) tr ->
      fs_exists host p = true /\
      exists workspacePath entries dir,
        getWorkspaceFolderPath host = inr workspacePath /\
        fs_readdir host workspacePath = inr entries /\
        In dir (candidates host workspacePath entries) /\
        forallb isPathSafe (split (cu "/") dir) = true /\
        p = activatePathOf host workspacePath dir).
Proof.
  intros Hrun.
  destruct (getWorkspaceFolderPath host) as [e|ws] eqn:Hws.
  { rewrite (run_workspace_failure _ Hws) in Hrun. injection Hrun as _ <-.
    split; intros p [H|[]]; discriminate. }
  destruct (fs_readdir host ws) as [e|entries] eqn:Hroot.
  { rewrite (run_root_failure _ Hws Hroot) in Hrun. injection Hrun as _ <-.
    split; intros p [H|[H|[]]]; discriminate. }
  assert (loop : forall evaluated rest ev,
             candidates host ws entries = evaluated ++ rest ->
             In ev (flat_map (eventsOf host ws) evaluated) ->
             (forall p, ev = ExistsSync p ->
                        exists dir, In dir (candidates host ws entries) /\
                                    forallb isPathSafe (split (cu "/") dir) = true /\
                                    p = activatePathOf host ws dir) /\
             (forall p, ev = ReadFile p ->
                        fs_exists host p = true /\
                        exists dir, In dir (candidates host ws entries) /\
                                    forallb isPathSafe (split (cu "/") dir) = true /\
                                    p = activatePathOf host ws dir)).
  { intros evaluated rest ev Hsplit Hev. apply in_flat_map in Hev.
    destruct Hev as [dir [Hdir Hev]].
    assert (Hcand : In dir (candidates host ws entries)).
    { rewrite Hsplit. apply in_or_app. now left. }
    apply eventsOf_safe in Hev.
    destruct Hev as [[-> _]|[[-> Hsafe]|[-> [Hsafe Hex]]]];
      split; intros p Hp; try discriminate; injection Hp as <-.
    - now exists dir.
    - split; [exact Hex|]. now exists dir. }
  assert (listing : forall ev,
             In ev (flat_map (subdirEvents host ws) (directoryNames entries)) ->
             (forall p, ev <> ExistsSync p) /\ (forall p, ev <> ReadFile p)).
  { intros ev Hev. apply subdirEvents_kinds in Hev.
    destruct Hev as [[d [_ ->]]|[d [e [_ [_ ->]]]]]; split; intros p; discriminate. }
  destruct (scan_shape host Hws Hroot)
    as [evaluated [rest [Hsplit [_ [[_ Hshape]|[dir [rest' [e [Hrest [Hbad Hshape]]]]]]]]]];
    rewrite Hshape in Hrun; injection Hrun as _ <-.
  - split; intros p [H|H]; try discriminate; apply in_app_or in H;
      destruct H as [H|H];
      try (exfalso; destruct (listing _ H) as [H1 H2];
           first [now apply (H1 p) | now apply (H2 p)]).
    + destruct (proj1 (loop _ _ _ Hsplit H) p eq_refl) as [dir Hdir].
      now exists ws, entries, dir.
    + destruct (proj2 (loop _ _ _ Hsplit H) p eq_refl) as [Hex [dir Hdir]].
      split; [exact Hex|]. now exists ws, entries, dir.
  - assert (Hcand : In dir (candidates host ws entries)).
    { rewrite Hsplit, Hrest. apply in_or_app. right. now left. }
    destruct Hbad as [Hsafe [Hex _]].
    split; intros p [H|H]; try discriminate; apply in_app_or in H;
      destruct H as [H|H];
      try (exfalso; destruct (listing _ H) as [H1 H2];
           first [now apply (H1 p) | now apply (H2 p)]);
      apply in_app_or in H; destruct H as [H|H].
    + destruct (proj1 (loop _ _ _ Hsplit H) p eq_refl) as [dir' Hdir].
      now exists ws, entries, dir'.
    + destruct H as [H|[H|[H|[]]]]; try discriminate. injection H as <-.
      now exists ws, entries, dir.
    + destruct (proj2 (loop _ _ _ Hsplit H) p eq_refl) as [Hex' [dir' Hdir]].
      split; [exact Hex'|]. now exists ws, entries, dir'.
    + destruct H as [H|[H|[H|[]]]]; try discriminate. injection H as <-.
      split; [exact Hex|]. now exists ws, entries, dir.
Qed.

Lemma file_access_only_for_safe_candidates_witness :
  fs_exists Inputs.unsafe_name (js "/ws/ok/bin/ruyi-activate") = true /\
  exists workspacePath entries dir,
    getWorkspaceFolderPath Inputs.unsafe_name = inr workspacePath /\
    fs_readdir Inputs.unsafe_name workspacePath = inr entries /\
    In dir (candidates Inputs.unsafe_name workspacePath entries) /\
    forallb isPathSafe (split (cu "/") dir) = true /\
    js "/ws/ok/bin/ruyi-activate" = activatePathOf Inputs.unsafe_name workspacePath dir.
Proof.
  apply (proj2 (@file_access_only_for_safe_candidates Inputs.unsafe_name
                  [(js "ok", js "fine")] (snd (run_detectVenv Inputs.unsafe_name))
                  ltac:(vm_compute; reflexivity))).
  vm_compute. tauto.
Defined.

(** X4. The cost of a scan is bounded by the first two levels of the tree:
    once the root is listed, [readdirSync] is called once for the root and
    once for each of its directories; [existsSync] is called at most once
    per candidate; [readFileSync] is called at most as often as
    [existsSync]; and every record returned took one read. *)
Theorem scan_cost_is_bounded (host : Host) (workspacePath : jsstring)
        (entries : list Dirent) (venvs : list venv) (tr : list event) :
  getWorkspaceFolderPath host = inr workspacePath ->
  fs_readdir host workspacePath = inr entries ->
  run_detectVenv host = (Normal venvs, tr) ->
  count isReaddir tr = 1 + List.length (directoryNames entries) /\
  count isExistsSync tr <= List.length (candidates host workspacePath entries) /\
  count isReadFile tr <= count isExistsSync tr /\
  List.length venvs <= count isReadFile tr.
Proof.
  intros Hws Hroot Hrun.
  destruct (scan_shape host Hws Hroot)
    as [evaluated [rest [Hsplit [_ [[-> Hshape]|[dir [rest' [e [-> [_ Hshape]]]]]]]]]];
    rewrite Hshape in Hrun; injection Hrun as <- <-; rewrite Hsplit;
    change (Readdir workspacePath :: ?l) with ([Readdir workspacePath] ++ l);
    rewrite !count_app, !length_app;
    pose proof (listing_cost host workspacePath (directoryNames entries));
    pose proof (loop_cost host workspacePath evaluated); cbn; lia.
Qed.

Lemma scan_cost_is_bounded_witness :
  count isReaddir (snd (run_detectVenv Inputs.deep_tree)) = 1 + 2 /\
  count isExistsSync (snd (run_detectVenv Inputs.deep_tree))
    <= List.length (candidates Inputs.deep_tree (js "/ws")
                      [Mock.dir "proj"; Mock.file "README.md"; Mock.dir "top"]) /\
  count isReadFile (snd (run_detectVenv Inputs.deep_tree))
    <= count isExistsSync (snd (run_detectVenv Inputs.deep_tree)) /\
  2 <= count isReadFile (snd (run_detectVenv Inputs.deep_tree)).
Proof.
  apply (@scan_cost_is_bounded Inputs.deep_tree (js "/ws")
           [Mock.dir "proj"; Mock.file "README.md"; Mock.dir "top"]
           [(js "top", js "top"); (js "proj/venvA", js "A")]
           (snd (run_detectVenv Inputs.deep_tree)));
    vm_compute; reflexivity.
Defined.

(** X5. Every record returned by [detectVenv] comes from a marker file: its
    relative path is a candidate whose marker file exists and was read in
    this scan, and its label is the label of the first line of that file
    that has [RUYI_VENV_PROMPT=]. *)
Theorem record_comes_from_a_marker_file (host : Host) (venvs : list venv)
        (tr : list event) (relativePath label : jsstring) :
  run_detectVenv host = (Normal venvs, tr) ->
  In (relativePath, label) venvs ->
  exists workspacePath content line,
    getWorkspaceFolderPath host = inr workspacePath /\
    fs_exists host (activatePathOf host workspacePath relativePath) = true /\
    fs_readFile host (activatePathOf host workspacePath relativePath) = inr content /\
    first_prompt_line content line /\
    label = labelOf line /\
    In (ReadFile (activatePathOf host workspacePath relativePath)) tr.
Proof.
  intros Hrun Hin.
  destruct (scan_record_origin _ _ Hrun Hin) as [ws [entries [Hws [Hroot [_ Hv]]]]].
  cbn [fst] in Hv.
  destruct (@venvsOf_In _ _ _ _ Hv) as [_ [Hex [content [line [Hread [Hline Hlabel]]]]]].
  injection Hlabel as ->.
  exists ws, content, line. repeat split; try assumption.
  { now apply promptLineOf_is_first. }
  assert (Hloop : forall evaluated,
             In (relativePath, labelOf line) (flat_map (venvsOf host ws) evaluated) ->
             In (ReadFile (activatePathOf host ws relativePath))
                (flat_map (eventsOf host ws) evaluated)).
  { intros evaluated H. apply in_flat_map in H. destruct H as [dir [Hdir Hrec]].
    apply in_flat_map. exists dir. split; [exact Hdir|].
    rewrite (@venvsOf_events _ _ _ _ Hrec).
    destruct (@venvsOf_In _ _ _ _ Hrec) as [_ [_ [c [l [_ [_ Heq]]]]]].
    injection Heq as <- _. right. now left. }
  destruct (scan_shape host Hws Hroot)
    as [evaluated [rest [_ [_ [[_ Hshape]|[dir [rest' [e [_ [_ Hshape]]]]]]]]]];
    rewrite Hshape in Hrun; injection Hrun as <- <-;
    right; apply in_or_app; right.
  - now apply Hloop.
  - apply in_or_app. left. now apply Hloop.
Qed.

Lemma record_comes_from_a_marker_file_witness :
  exists workspacePath content line,
    getWorkspaceFolderPath Inputs.deep_tree = inr workspacePath /\
    fs_exists Inputs.deep_tree
      (activatePathOf Inputs.deep_tree workspacePath (js "proj/venvA")) = true /\
    fs_readFile Inputs.deep_tree
      (activatePathOf Inputs.deep_tree workspacePath (js "proj/venvA")) = inr content /\
    first_prompt_line content line /\
    js "A" = labelOf line /\
    In (ReadFile (activatePathOf Inputs.deep_tree workspacePath (js "proj/venvA")))
       (snd (run_detectVenv Inputs.deep_tree)).
Proof.
  apply (@record_comes_from_a_marker_file Inputs.deep_tree
           [(js "top", js "top"); (js "proj/venvA", js "A")]
           (snd (run_detectVenv Inputs.deep_tree)) (js "proj/venvA") (js "A")).
  - vm_compute. reflexivity.
  - right. now left.
Defined.

(* ================================================================= *)
(** ** The label *)

(** X6. Every label returned by [detectVenv] is one trimmed field of one
    line: it has no [=] and no line feed in it, and it neither begins nor
    ends with a whitespace code unit. *)
Theorem labels_are_trimmed_fields (host : Host) (venvs : list venv)
        (tr : list event) (relativePath label : jsstring) :
  run_detectVenv host = (Normal venvs, tr) ->
  In (relativePath, label) venvs ->
  ~ In (cu "=") label /\
  ~ In (cu "010") label /\
  (forall c rest, label = c :: rest -> isWhiteSpace c = false) /\
  (forall c init, label = init ++ [c] -> isWhiteSpace c = false).
Proof.
  intros Hrun Hin.
  destruct (scan_record_origin _ _ Hrun Hin) as [ws [entries [_ [_ [_ Hv]]]]].
  cbn [fst] in Hv.
  destruct (@venvsOf_In _ _ _ _ Hv) as [_ [_ [content [line [_ [Hline Hlabel]]]]]].
  injection Hlabel as ->. unfold labelOf.
  destruct (second_field (cu "=") line) as [Hsep Hsub].
  unfold promptLineOf in Hline. apply find_some in Hline. destruct Hline as [Hline _].
  repeat split.
  - intros H. apply Hsep. now apply trim_In.
  - intros H. apply (@split_fields_without_sep _ _ _ Hline).
    apply Hsub. now apply trim_In.
  - intros c rest. apply trim_head.
  - intros c init. apply trim_last.
Qed.

Lemma labels_are_trimmed_fields_witness :
  ~ In (cu "=") (js "a") /\
  ~ In (cu "010") (js "a") /\
  (forall c rest, js "a" = c :: rest -> isWhiteSpace c = false) /\
  (forall c init, js "a" = init ++ [c] -> isWhiteSpace c = false).
Proof.
  apply (@labels_are_trimmed_fields Inputs.value_with_eq [(js "env", js "a")]
           Inputs.scan_events (js "env") (js "a")).
  - vm_compute. reflexivity.
  - now left.
Defined.

(** X7. Whitespace around the prompt line does not change the label:
    with indentation before it and whitespace after it (a carriage return
    of a CRLF line ending, for one), a line that has [RUYI_VENV_PROMPT=]
    still has it, and [split('=')[1].trim()] gives the same label. *)
Theorem label_ignores_surrounding_whitespace (line indent trailing : jsstring) :
  forallb isWhiteSpace indent = true ->
  forallb isWhiteSpace trailing = true ->
  (includes line (js "RUYI_VENV_PROMPT=") = true ->
   includes (indent ++ line ++ trailing) (js "RUYI_VENV_PROMPT=") = true) /\
  labelOf (indent ++ line ++ trailing) = labelOf line.
Proof.
  intros Hindent Htrailing. split.
  { intros H. apply includes_substring in H. destruct H as [before [after ->]].
    apply includes_substring. exists (indent ++ before), (after ++ trailing).
    now rewrite <- !app_assoc. }
  unfold labelOf.
  pose proof (whitespace_without_eq _ Hindent) as Hi.
  pose proof (whitespace_without_eq _ Htrailing) as Ht.
  destruct (in_dec N.eq_dec (cu "=") line) as [Hin|Hout].
  - destruct (first_sep _ _ Hin) as [a [b [-> Ha]]].
    rewrite <- app_assoc, app_assoc. cbn [app].
    rewrite !split_at_first; try assumption.
    2:{ intros H. apply in_app_or in H. tauto. }
    cbn [nth].
    destruct (in_dec N.eq_dec (cu "=") b) as [Hb|Hb].
    + destruct (first_sep _ _ Hb) as [b1 [b2 [-> Hb1]]].
      rewrite <- app_assoc. cbn [app]. now rewrite !split_at_first.
    + rewrite !split_without_sep; try assumption.
      * cbn [nth]. now apply trim_whitespace_app.
      * intros H. apply in_app_or in H. tauto.
  - rewrite !split_without_sep; try assumption; [reflexivity|].
    intros H. apply in_app_or in H. destruct H as [H|H]; [tauto|].
    apply in_app_or in H. tauto.
Qed.

Lemma label_ignores_surrounding_whitespace_witness :
  labelOf (js "  " ++ js "RUYI_VENV_PROMPT=my env" ++ [cu "013"])
  = labelOf (js "RUYI_VENV_PROMPT=my env").
Proof.
  apply (proj2 (@label_ignores_surrounding_whitespace (js "RUYI_VENV_PROMPT=my env")
                  (js "  ") [cu "013"] eq_refl eq_refl)).
Defined.

(* ================================================================= *)
(** ** What is reported, and how often *)

(** X8. An entry of the root that is not a directory for [Dirent.isDirectory]
    (a plain file, or a symbolic link) is never a candidate and its name is
    never a relative path of the result, in a tree whose names have no
    separator. *)
Theorem non_directories_are_never_reported (host : Host) (workspacePath : jsstring)
        (entries : list Dirent) (venvs : list venv) (tr : list event)
        (entry : Dirent) :
  names_without_separator host ->
  getWorkspaceFolderPath host = inr workspacePath ->
  fs_readdir host workspacePath = inr entries ->
  run_detectVenv host = (Normal venvs, tr) ->
  In entry entries ->
  (forall other, In other entries -> name other = name entry ->
                 isDirectory other = false) ->
  ~ In (name entry) (candidates host workspacePath entries) /\
  ~ In (name entry) (map fst venvs).
Proof.
  intros Hnames Hws Hroot Hrun Hentry Hfile.
  assert (Hcand : ~ In (name entry) (candidates host workspacePath entries)).
  { intros H. apply candidates_In in H.
    destruct H as [H|[d1 [l [d2 [_ [_ [_ Heq]]]]]]].
    - apply directoryNames_In in H. destruct H as [other [Hother [Hdir Hname]]].
      rewrite (Hfile _ Hother Hname) in Hdir. discriminate.
    - apply (Hnames _ _ _ Hroot Hentry). rewrite Heq.
      apply in_or_app. right. now left. }
  split; [exact Hcand|].
  intros H. apply in_map_iff in H. destruct H as [[p l] [Hp Hin]]. cbn [fst] in Hp.
  subst p. destruct (scan_record_origin _ _ Hrun Hin) as [ws [es [Hws' [Hroot' [Hc _]]]]].
  rewrite Hws in Hws'. injection Hws' as <-.
  rewrite Hroot in Hroot'. injection Hroot' as <-. exact (Hcand Hc).
Qed.

Lemma non_directories_are_never_reported_witness :
  ~ In (js "README.md")
       (candidates Inputs.deep_tree (js "/ws")
          [Mock.dir "proj"; Mock.file "README.md"; Mock.dir "top"]) /\
  ~ In (js "README.md") (map fst [(js "top", js "top"); (js "proj/venvA", js "A")]).
Proof.
  apply (@non_directories_are_never_reported Inputs.deep_tree (js "/ws")
           [Mock.dir "proj"; Mock.file "README.md"; Mock.dir "top"]
           [(js "top", js "top"); (js "proj/venvA", js "A")]
           (snd (run_detectVenv Inputs.deep_tree)) (Mock.file "README.md")).
  - apply MockFacts.host_of_names. vm_compute. reflexivity.
  - reflexivity.
  - reflexivity.
  - vm_compute. reflexivity.
  - right. now left.
  - intros other [<-|[<-|[<-|[]]]] H; try reflexivity; vm_compute in H; discriminate.
Defined.

(** X9. No environment is reported twice: in a tree whose names have no
    separator and whose listings have no two entries of the same name, the
    relative paths of the result are pairwise different. *)
Theorem no_environment_is_reported_twice (host : Host) (venvs : list venv)
        (tr : list event) :
  names_without_separator host ->
  listings_without_duplicates host ->
  run_detectVenv host = (Normal venvs, tr) ->
  NoDup (map fst venvs).
Proof.
  intros Hnames Hdistinct Hrun.
  destruct (getWorkspaceFolderPath host) as [e|ws] eqn:Hws.
  { rewrite (run_workspace_failure _ Hws) in Hrun. injection Hrun as <- _. constructor. }
  destruct (fs_readdir host ws) as [e|entries] eqn:Hroot.
  { rewrite (run_root_failure _ Hws Hroot) in Hrun. injection Hrun as <- _. constructor. }
  pose proof (candidates_NoDup ws Hnames Hdistinct Hroot) as Hcand.
  destruct (scan_shape host Hws Hroot)
    as [evaluated [rest [Hsplit [_ [[_ Hshape]|[dir [rest' [e [_ [_ Hshape]]]]]]]]]];
    rewrite Hshape in Hrun; injection Hrun as <- _;
    apply records_NoDup; rewrite Hsplit in Hcand;
    exact (NoDup_app_remove_r _ _ Hcand).
Qed.

Lemma no_environment_is_reported_twice_witness :
  NoDup (map fst [(js "top", js "top"); (js "proj/venvA", js "A")]).
Proof.
  apply (@no_environment_is_reported_twice Inputs.deep_tree
           [(js "top", js "top"); (js "proj/venvA", js "A")]
           (snd (run_detectVenv Inputs.deep_tree))).
  - apply MockFacts.host_of_names. vm_compute. reflexivity.
  - apply host_of_distinct. vm_compute. reflexivity.
  - vm_compute. reflexivity.
Defined.

(** X10. Every relative path returned by [detectVenv] is well formed as a
    whole: it is not empty, does not begin or end with [/], has no [//], no
    [..] and no null code unit anywhere in it. *)
Theorem reported_paths_are_well_formed (host : Host) (venvs : list venv)
        (tr : list event) (relativePath label : jsstring) :
  run_detectVenv host = (Normal venvs, tr) ->
  In (relativePath, label) venvs ->
  relativePath <> [] /\
  startsWith relativePath (js "/") = false /\
  (forall init, relativePath <> init ++ js "/") /\
  includes relativePath (js "//") = false /\
  includes relativePath (js "..") = false /\
  ~ In 0%N relativePath.
Proof.
  intros Hrun Hin. apply safe_path_shape.
  destruct (scan_record_origin _ _ Hrun Hin) as [ws [entries [_ [_ [_ Hv]]]]].
  cbn [fst] in Hv. destruct (@venvsOf_In _ _ _ _ Hv) as [Hsafe _]. exact Hsafe.
Qed.

Lemma reported_paths_are_well_formed_witness :
  js "proj/venvA" <> [] /\
  startsWith (js "proj/venvA") (js "/") = false /\
  (forall init, js "proj/venvA" <> init ++ js "/") /\
  includes (js "proj/venvA") (js "//") = false /\
  includes (js "proj/venvA") (js "..") = false /\
  ~ In 0%N (js "proj/venvA").
Proof.
  apply (@reported_paths_are_well_formed Inputs.deep_tree
           [(js "top", js "top"); (js "proj/venvA", js "A")]
           (snd (run_detectVenv Inputs.deep_tree)) (js "proj/venvA") (js "A")).
  - vm_compute. reflexivity.
  - right. now left.
Defined.

(* ================================================================= *)
(** ** The clean command *)

(** X11. The clean command deletes exactly when the user picked an
    environment that is not the active one, chose [Delete] in the dialog, the
    workspace resolved and [stat] of the target succeeded; what it deletes is
    [path.join(workspacePath, rawPath)] (the [./] it added is always
    stripped again), recursively and without the trash.  [stat] itself is
    only called after the same pick, guard and confirmation. *)
Theorem delete_is_guarded_and_targets_the_pick (wb : Clean.Workbench) :
  (forall path recursive useTrash,
      In (Clean.FsDelete path recursive useTrash) (snd (Clean.run_cleanCommand wb)) <->
      exists picked workspacePath,
        Clean.detect_pick wb = inr (Some picked) /\
        Clean.currentVenv wb <> Some (js "./" ++ Clean.rawPath picked) /\
        Clean.warning_choice wb (CleanOutcome.confirmText picked) = Some (js "Delete") /\
        Clean.workspaceFolderPath wb = inr workspacePath /\
        Clean.workspace_stat wb (Clean.join wb [workspacePath; Clean.rawPath picked])
          = inr tt /\
        path = Clean.join wb [workspacePath; Clean.rawPath picked] /\
        recursive = true /\ useTrash = false) /\
  (forall path,
      In (Clean.FsStat path) (snd (Clean.run_cleanCommand wb)) ->
      exists picked workspacePath,
        Clean.detect_pick wb = inr (Some picked) /\
        Clean.currentVenv wb <> Some (js "./" ++ Clean.rawPath picked) /\
        Clean.warning_choice wb (CleanOutcome.confirmText picked) = Some (js "Delete") /\
        Clean.workspaceFolderPath wb = inr workspacePath /\
        path = Clean.join wb [workspacePath; Clean.rawPath picked]).
Proof.
  rewrite CleanFacts.cleanCommand_run. unfold CleanOutcome.cleanOutcome.
  destruct (Clean.detect_pick wb) as [e|[picked|]].
  1,3: split; [intros path r t; split; [intros [H|[]]; discriminate
                                       | intros [p [w [H _]]]; discriminate]
              | intros path [H|[]]; discriminate].
  destruct (Clean.strict_eq (js "./" ++ Clean.rawPath picked) (Clean.currentVenv wb))
    eqn:Hguard.
  { apply CleanFacts.strict_eq_true in Hguard. split.
    - intros path r t. split; [intros [H|[H|[]]]; discriminate|].
      intros [p [w [Hp [Hg _]]]]. injection Hp as <-. destruct (Hg Hguard).
    - intros path [H|[H|[]]]; discriminate. }
  apply CleanFacts.strict_eq_false in Hguard.
  destruct (Clean.strict_eq (js "Delete")
              (Clean.warning_choice wb (CleanOutcome.confirmText picked))) eqn:Hchoice.
  2:{ apply CleanFacts.strict_eq_false in Hchoice. split.
      - intros path r t. split; [intros [H|[H|[]]]; discriminate|].
        intros [p [w [Hp [_ [Hc _]]]]]. injection Hp as <-. destruct (Hchoice Hc).
      - intros path [H|[H|[]]]; discriminate. }
  apply CleanFacts.strict_eq_true in Hchoice.
  destruct (Clean.workspaceFolderPath wb) as [e|ws].
  { split.
    - intros path r t. split; [intros [H|[H|[H|[]]]]; discriminate|].
      intros [p [w [_ [_ [_ [Hw _]]]]]]. discriminate.
    - intros path [H|[H|[H|[]]]]; discriminate. }
  destruct (Clean.workspace_stat wb (Clean.join wb [ws; Clean.rawPath picked]))
    as [e|[]] eqn:Hstat.
  { split.
    - intros path r t. split; [intros [H|[H|[H|[H|[]]]]]; discriminate|].
      intros [p [w [Hp [_ [_ [Hw [Hs _]]]]]]]. injection Hp as <-. injection Hw as <-.
      rewrite Hstat in Hs. discriminate.
    - intros path [H|[H|[H|[H|[]]]]]; try discriminate. injection H as <-.
      now exists picked, ws. }
  assert (Hdelete : forall path r t last,
             In (Clean.FsDelete path r t)
                [Clean.ExecuteCommand (js "ruyi.venv.detect") (js "clean");
                 Clean.ShowWarningMessage (CleanOutcome.confirmText picked) true (js "Delete");
                 Clean.FsStat (Clean.join wb [ws; Clean.rawPath picked]);
                 Clean.FsDelete (Clean.join wb [ws; Clean.rawPath picked]) true false;
                 last] ->
             (forall p' r' t', last <> Clean.FsDelete p' r' t') ->
             path = Clean.join wb [ws; Clean.rawPath picked] /\ r = true /\ t = false).
  { intros path r t last [H|[H|[H|[H|[H|[]]]]]] Hlast; try discriminate.
    - now injection H.
    - exfalso. exact (Hlast _ _ _ H). }
  assert (Hstat' : forall path last,
             In (Clean.FsStat path)
                [Clean.ExecuteCommand (js "ruyi.venv.detect") (js "clean");
                 Clean.ShowWarningMessage (CleanOutcome.confirmText picked) true (js "Delete");
                 Clean.FsStat (Clean.join wb [ws; Clean.rawPath picked]);
                 Clean.FsDelete (Clean.join wb [ws; Clean.rawPath picked]) true false;
                 last] ->
             (forall p', last <> Clean.FsStat p') ->
             path = Clean.join wb [ws; Clean.rawPath picked]).
  { intros path last [H|[H|[H|[H|[H|[]]]]]] Hlast; try discriminate.
    - now injection H.
    - exfalso. exact (Hlast _ H). }
  destruct (Clean.workspace_delete wb (Clean.join wb [ws; Clean.rawPath picked]))
    as [e|[]]; cbn [snd]; (split; [intros path r t; split|]).
  all: try (intros H; apply Hdelete in H; [|intros; discriminate];
            destruct H as [-> [-> ->]]; now exists picked, ws).
  all: try (intros [p [w [Hp [_ [_ [Hw [_ [-> [-> ->]]]]]]]]];
            injection Hp as <-; injection Hw as <-; right; right; right; now left).
  all: intros path H; apply Hstat' in H; [|intros; discriminate]; subst path;
    now exists picked, ws.
Qed.

Lemma delete_is_guarded_and_targets_the_pick_witness :
  In (Clean.FsDelete (js "/ws/proj/venvA") true false)
     (snd (Clean.run_cleanCommand CleanInputs.inactive_picked)).
Proof.
  apply (proj1 (delete_is_guarded_and_targets_the_pick CleanInputs.inactive_picked)).
  exists CleanInputs.picked_env, (js "/ws").
  repeat split; try reflexivity. discriminate.
Defined.

(** X12. The clean command reports what happened and throws only when the
    picker itself rejects.  It shows at most one notification per
    invocation; the success message is shown only after a delete that
    succeeded; a delete that fails is followed by the error message made
    from the failure; and when [stat] fails the error is shown and no delete
    is attempted. *)
Theorem clean_reports_every_failure (wb : Clean.Workbench) :
  (forall e, fst (Clean.run_cleanCommand wb) = Throw e <-> Clean.detect_pick wb = inl e) /\
  List.length (filter CleanOutcome.isNotification (snd (Clean.run_cleanCommand wb))) <= 1 /\
  (forall text,
      In (Clean.ShowInformationMessage text) (snd (Clean.run_cleanCommand wb)) ->
      exists path,
        text = CleanOutcome.successText path /\
        In (Clean.FsDelete path true false) (snd (Clean.run_cleanCommand wb)) /\
        Clean.workspace_delete wb path = inr tt) /\
  (forall path recursive useTrash e,
      In (Clean.FsDelete path recursive useTrash) (snd (Clean.run_cleanCommand wb)) ->
      Clean.workspace_delete wb path = inl e ->
      In (Clean.ShowErrorMessage (CleanOutcome.failureText e))
         (snd (Clean.run_cleanCommand wb))) /\
  (forall path e,
      In (Clean.FsStat path) (snd (Clean.run_cleanCommand wb)) ->
      Clean.workspace_stat wb path = inl e ->
      In (Clean.ShowErrorMessage (CleanOutcome.failureText e))
         (snd (Clean.run_cleanCommand wb)) /\
      filter Clean.isDelete (snd (Clean.run_cleanCommand wb)) = []).
Proof.
  rewrite CleanFacts.cleanCommand_run. unfold CleanOutcome.cleanOutcome. split.
  { intros e. destruct (Clean.detect_pick wb) as [e0|[picked|]].
    - cbn [fst]. split; intros H; injection H as ->; reflexivity.
    - repeat match goal with
             | |- context [match ?x with _ => _ end] => destruct x
             end; cbn [fst]; split; intros H; discriminate.
    - cbn [fst]. split; intros H; discriminate. }
  destruct (Clean.detect_pick wb) as [e0|[picked|]].
  1,3: split; [cbn; lia|];
    split; [intros text H; in_cases H|];
    split; [intros path r t e H Hf; in_cases H | intros path e H Hf; in_cases H].
  destruct (Clean.strict_eq (js "./" ++ Clean.rawPath picked) (Clean.currentVenv wb)).
  { split; [cbn; lia|]. split; [intros text H; in_cases H|].
    split; [intros path r t e H Hf; in_cases H | intros path e H Hf; in_cases H]. }
  destruct (Clean.strict_eq (js "Delete")
              (Clean.warning_choice wb (CleanOutcome.confirmText picked))).
  2:{ split; [cbn; lia|]. split; [intros text H; in_cases H|].
      split; [intros path r t e H Hf; in_cases H | intros path e H Hf; in_cases H]. }
  destruct (Clean.workspaceFolderPath wb) as [e1|ws].
  { split; [cbn; lia|]. split; [intros text H; in_cases H|].
    split; [intros path r t e H Hf; in_cases H | intros path e H Hf; in_cases H]. }
  destruct (Clean.workspace_stat wb (Clean.join wb [ws; Clean.rawPath picked]))
    as [e2|[]] eqn:Hstat.
  { split; [cbn; lia|]. split; [intros text H; in_cases H|].
    split; [intros path r t e H Hf; in_cases H|].
    intros path e H Hf; in_cases H.
    injection H as <-. rewrite Hstat in Hf. injection Hf as <-.
    split; [|reflexivity]. right. right. right. now left. }
  destruct (Clean.workspace_delete wb (Clean.join wb [ws; Clean.rawPath picked]))
    as [e3|[]] eqn:Hdel.
  - split; [cbn; lia|]. split; [intros text H; in_cases H|]. split.
    + intros path r t e H Hf; in_cases H.
      injection H as <- _ _. rewrite Hdel in Hf. injection Hf as <-.
      right. right. right. right. now left.
    + intros path e H Hf; in_cases H.
      injection H as <-. rewrite Hstat in Hf. discriminate.
  - split; [cbn; lia|]. split; [|split].
    + intros text H; in_cases H. injection H as <-.
      exists (Clean.join wb [ws; Clean.rawPath picked]).
      split; [reflexivity|]. split; [|exact Hdel]. right. right. right. now left.
    + intros path r t e H Hf; in_cases H.
      injection H as <- _ _. rewrite Hdel in Hf. discriminate.
    + intros path e H Hf; in_cases H.
      injection H as <-. rewrite Hstat in Hf. discriminate.
Qed.

Lemma clean_reports_every_failure_witness :
  In (Clean.ShowErrorMessage (CleanOutcome.failureText Mock.EACCES))
     (snd (Clean.run_cleanCommand CleanInputs.delete_denied)).
Proof.
  destruct (clean_reports_every_failure CleanInputs.delete_denied)
    as [_ [_ [_ [H _]]]].
  apply (H (js "/ws/proj/venvA") true false Mock.EACCES).
  - vm_compute. tauto.
  - reflexivity.
Defined.

(* ================================================================= *)
(** ** From the scan to the deletion *)

(** X13. With Node's POSIX [path.join], deleting an environment that
    [detectVenv] returned stays below the workspace: the path given to the
    delete is the normalized workspace path, a separator, and the relative
    path exactly as it was returned; no segment of it is dropped, and none
    climbs out of the workspace. *)
Theorem deletion_target_stays_under_workspace (host : Host) (venvs : list venv)
        (tr : list event) (relativePath label : jsstring)
        (wb : Clean.Workbench) (picked : Clean.PickedVenv) (workspacePath : jsstring) :
  run_detectVenv host = (Normal venvs, tr) ->
  In (relativePath, label) venvs ->
  Clean.join wb = PosixPath.join ->
  Clean.detect_pick wb = inr (Some picked) ->
  Clean.rawPath picked = relativePath ->
  Clean.workspaceFolderPath wb = inr workspacePath ->
  PosixPath.join [workspacePath; relativePath] = root_prefix workspacePath ++ relativePath /\
  forall path recursive useTrash,
    In (Clean.FsDelete path recursive useTrash) (snd (Clean.run_cleanCommand wb)) ->
    path = root_prefix workspacePath ++ relativePath.
Proof.
  intros Hrun Hin Hjoin Hpick Hraw Hws.
  assert (Hsafe : forallb isPathSafe (split (cu "/") relativePath) = true).
  { destruct (scan_record_origin _ _ Hrun Hin) as [ws [entries [_ [_ [_ Hv]]]]].
    cbn [fst] in Hv. now destruct (@venvsOf_In _ _ _ _ Hv) as [H _]. }
  pose proof (PosixFacts.join_safe workspacePath _ Hsafe) as Htarget.
  split; [exact Htarget|].
  intros path recursive useTrash Hdel.
  destruct (clean_delete_target _ _ _ _ Hdel) as [picked' [ws' [Hp [Hw ->]]]].
  rewrite Hpick in Hp. injection Hp as <-. rewrite Hws in Hw. injection Hw as <-.
  now rewrite Hjoin, Hraw.
Qed.

Lemma deletion_target_stays_under_workspace_witness :
  PosixPath.join [js "/ws"; js "proj/venvA"] = root_prefix (js "/ws") ++ js "proj/venvA" /\
  forall path recursive useTrash,
    In (Clean.FsDelete path recursive useTrash)
       (snd (Clean.run_cleanCommand CleanInputs.inactive_picked)) ->
    path = root_prefix (js "/ws") ++ js "proj/venvA".
Proof.
  apply (@deletion_target_stays_under_workspace Inputs.deep_tree
           [(js "top", js "top"); (js "proj/venvA", js "A")]
           (snd (run_detectVenv Inputs.deep_tree)) (js "proj/venvA") (js "A")
           CleanInputs.inactive_picked CleanInputs.picked_env (js "/ws")).
  - vm_compute. reflexivity.
  - right. now left.
  - reflexivity.
  - reflexivity.
  - reflexivity.
  - reflexivity.
Defined.

(* ================================================================= *)
(** ** A depth-1 directory that cannot be listed *)

(** X14. A depth-1 directory that cannot be listed is handled inside the
    traversal: the callback completes normally with no depth-2 candidate and
    logs one warning.  In the scan, that warning is logged once for a
    directory listed once (and no other warning names the directory when its
    name is safe), every sibling is still listed, and a sibling that is an
    environment has its record in the result, provided no candidate
    evaluated before it has a marker file that exists and cannot be read. *)
Theorem unreadable_subdirectory_is_isolated (host : Host)
        (workspacePath : jsstring) (entries : list Dirent)
        (subdir : jsstring) (e : exn) :
  getWorkspaceFolderPath host = inr workspacePath ->
  fs_readdir host workspacePath = inr entries ->
  In subdir (directoryNames entries) ->
  fs_readdir host (path_join host [workspacePath; subdir]) = inl e ->
  (forall w,
      listSubdir host workspacePath subdir w =
      (Normal [],
       extend w [] [Readdir (path_join host [workspacePath; subdir]);
                    ConsoleWarn (FailedToRead subdir e)])) /\
  exists venvs tr,
    run_detectVenv host = (Normal venvs, tr) /\
    (count_occ (list_eq_dec N.eq_dec) (directoryNames entries) subdir = 1 ->
     filter (isFailedToRead subdir) tr = [ConsoleWarn (FailedToRead subdir e)]) /\
    (count_occ (list_eq_dec N.eq_dec) (directoryNames entries) subdir = 1 ->
     forallb isPathSafe (split (cu "/") subdir) = true ->
     filter (isWarningAbout subdir) tr = [ConsoleWarn (FailedToRead subdir e)]) /\
    (forall sibling,
        In sibling (directoryNames entries) ->
        In (Readdir (path_join host [workspacePath; sibling])) tr) /\
    (forall before sibling after content line,
        candidates host workspacePath entries = before ++ sibling :: after ->
        markersReadable host workspacePath before = true ->
        forallb isPathSafe (split (cu "/") sibling) = true ->
        fs_exists host (activatePathOf host workspacePath sibling) = true ->
        fs_readFile host (activatePathOf host workspacePath sibling) = inr content ->
        first_prompt_line content line ->
        In (sibling, labelOf line) venvs).
Proof.
  intros Hws Hroot Hsub Hfail. split.
  { intros w. rewrite listSubdir_run. unfold subdirCandidates, subdirEvents.
    now rewrite Hfail. }
  pose proof (run_scan _ Hws Hroot) as Hrun.
  pose proof (loop_failed_to_read host workspacePath subdir
                (candidates host workspacePath entries)) as Hloop1.
  pose proof (fun safe => @loop_warnings host workspacePath subdir
                (candidates host workspacePath entries) safe) as Hloop2.
  assert (Hreach : forall before sibling after v,
             candidates host workspacePath entries = before ++ sibling :: after ->
             markersReadable host workspacePath before = true ->
             In v (venvsOf host workspacePath sibling) ->
             In v (snd (fst (loopOutcome host workspacePath
                               (candidates host workspacePath entries))))).
  { intros before sibling after v Hsplit Hbefore Hv. rewrite Hsplit.
    now apply loop_reaches. }
  destruct (loopOutcome host workspacePath (candidates host workspacePath entries))
    as [[c venvs] evs]. cbn [snd fst] in *.
  exists venvs, (Readdir workspacePath ::
                 flat_map (subdirEvents host workspacePath) (directoryNames entries) ++
                 evs ++ handlerEvents c).
  split; [exact Hrun|].
  assert (Hhandler1 : filter (isFailedToRead subdir) (handlerEvents c) = []).
  { destruct c; reflexivity. }
  assert (Hhandler2 : filter (isWarningAbout subdir) (handlerEvents c) = []).
  { destruct c; reflexivity. }
  repeat split.
  - intros Honce. cbn [filter isFailedToRead].
    rewrite !filter_app, (listing_failed_to_read _ _ _ _ Hfail), Honce, Hloop1, Hhandler1.
    reflexivity.
  - intros Honce Hsafe. cbn [filter isWarningAbout].
    rewrite !filter_app, (listing_warnings _ _ _ _ Hfail), Honce, (Hloop2 Hsafe), Hhandler2.
    reflexivity.
  - intros sibling Hsib. right. apply in_or_app. left.
    now apply subdirEvents_listed.
  - intros before sibling after content line Hsplit Hbefore Hsafe Hex Hfile Hfirst.
    apply (Hreach before sibling after _ Hsplit Hbefore).
    rewrite (venvsOf_prompt _ _ _ Hsafe Hex Hfile Hfirst). now left.
Qed.

Lemma unreadable_subdirectory_is_isolated_witness :
  exists tr,
    run_detectVenv Inputs.one_locked =
    (Normal [(js "good", js "ok"); (js "good/inner", js "in")], tr) /\
    filter (isWarningAbout (js "locked")) tr =
    [ConsoleWarn (FailedToRead (js "locked") Mock.EACCES)].
Proof.
  destruct (@unreadable_subdirectory_is_isolated Inputs.one_locked
              (js "/ws") [Mock.dir "locked"; Mock.dir "good"] (js "locked") Mock.EACCES
              eq_refl eq_refl (or_introl eq_refl) eq_refl)
    as [_ [venvs [tr [Hrun [_ [Hwarn _]]]]]].
  exists tr. split.
  - rewrite Hrun. vm_compute in Hrun. injection Hrun as <- _. reflexivity.
  - apply Hwarn; reflexivity.
Defined.
